(** * fullpage-screenshots: scroll planning, tile stitching, DOM normalisation
      and the capture orchestrator of [index.js]

    The JavaScript module is embedded function by function.  Pixel quantities
    (viewport sizes, overlap, page heights, scroll offsets) are integers, held
    in [Z]; JavaScript computes on them with doubles, which are exact on
    integers of this size.  The only fractional quantity of the file,
    [overlap / 2], is computed in [Q].

    Calls on the Puppeteer session are effects: they are recorded in a trace
    and their outcome is read from an environment, see [Module Session]. *)

From Stdlib Require Import ZArith List Bool String Lia QArith.
Import ListNotations.
Local Open Scope Z_scope.
#[local] Set Warnings "-register-all".

(** ** The scroll planner: lines 56-73 of [takeScreenshotsOfPage] *)

Module Planner.

Section Plan.

Variables (fullHeight viewportHeight overlap : Z).

(** The [while (true)] loop.  [positions] and [currentPos] are the two
    variables the loop mutates; [fuel] bounds the number of iterations,
    [None] is a loop that has not reached its [break]. *)
Fixpoint collect (fuel : nat) (positions : list Z) (currentPos : Z)
  : option (list Z) :=
  match fuel with
  | O => None
  | S fuel' =>
      let positions := positions ++ [currentPos] in
      let currentPos := currentPos + (viewportHeight - overlap) in
      if currentPos + viewportHeight >? fullHeight
      then Some positions
      else collect fuel' positions currentPos
  end.

(** [Math.max(0, fullHeight - viewportHeight)] *)
Definition finalPos : Z := Z.max 0 (fullHeight - viewportHeight).

(** [positions[positions.length - 1]]; the loop pushes before it tests, so
    the array is never empty here. *)
Definition lastPos (positions : list Z) : Z := last positions 0.

(** [finalPos > positions[positions.length - 1] + overlap / 2], with the
    division of the source. *)
Definition snapNeeded (positions : list Z) : bool :=
  negb (Qle_bool (inject_Z finalPos)
                 (inject_Z (lastPos positions) + inject_Z overlap / 2)).

Definition snap (positions : list Z) : list Z :=
  if snapNeeded positions then positions ++ [finalPos] else positions.

(** The array [positions] as the capture loop of line 77 receives it. *)
Definition planPositions (fuel : nat) : option (list Z) :=
  match collect fuel [] 0 with
  | Some positions => Some (snap positions)
  | None => None
  end.

(** Iterations that always suffice when the loop terminates at all. *)
Definition enoughFuel : nat := S (Z.to_nat (fullHeight - viewportHeight)).

End Plan.

(** Adjacent offsets grow. *)
Fixpoint strictly_increasing (l : list Z) : Prop :=
  match l with
  | a :: (b :: _) as t => a < b /\ strictly_increasing t
  | _ => True
  end.

(** What the loop leaves behind [currentPos]: every further offset is one
    step on and still has a full viewport above the bottom of the page; the
    offset after the last one does not. *)
Fixpoint chain (fullHeight viewportHeight overlap cur : Z) (tl : list Z) : Prop :=
  match tl with
  | [] => cur + (viewportHeight - overlap) + viewportHeight > fullHeight
  | p :: tl' =>
      p = cur + (viewportHeight - overlap) /\ p + viewportHeight <= fullHeight /\
      chain fullHeight viewportHeight overlap p tl'
  end.

End Planner.

(** ** Rasters and the compositing library

    [sharp] is an external library; this is the part of its behaviour that
    [stitchScreenshots] relies on: a blank canvas of a given size and
    background, and [composite], which draws the overlays one after the
    other, each over the result of the previous ones. *)

Module Sharp.

Record RGB := { red : Z; green : Z; blue : Z }.

(** [{ r, g, b, alpha }], alpha between 0 and 1 as in the [background]
    option. *)
Record RGBA := { r : Z; g : Z; b : Z; alpha : Z }.

(** A decoded viewport screenshot.  [page.screenshot] is called without
    [omitBackground], so a tile has no transparent pixel: its pixels are
    plain colours. *)
Record Image := { width : Z; height : Z; rgb : Z -> Z -> RGB }.

(** A raster with 4 channels; [pixel x y] is column [x] of row [y]. *)
Record Canvas := { cwidth : Z; cheight : Z; pixel : Z -> Z -> RGBA }.

Record CreateOptions :=
  { create_width : Z; create_height : Z; channels : Z; background : RGBA }.

Record CompositeOp := { input : Image; top : Z; left : Z }.

Inductive Result (A : Type) : Type :=
| Done (a : A)
| Failed (msg : string).
Arguments Done {A} a.
Arguments Failed {A} msg.

Definition opaque (c : RGB) : RGBA :=
  {| r := red c; g := green c; b := blue c; alpha := 1 |}.

(** [sharp({ create: ... })]: the constructor refuses a size that is not
    positive. *)
Definition create (o : CreateOptions) : Result Canvas :=
  if (0 <? create_width o) && (0 <? create_height o)
  then Done {| cwidth := create_width o; cheight := create_height o;
               pixel := fun _ _ => background o |}
  else Failed "Expected positive integer for create.width and create.height".

(** The pixels of the canvas an overlay is drawn on. *)
Definition covers (op : CompositeOp) (x y : Z) : bool :=
  (left op <=? x) && (x <? left op + width (input op)) &&
  (top op <=? y) && (y <? top op + height (input op)).

(** One overlay, blend mode [over] with an opaque input: inside the
    overlay the input replaces the canvas, outside nothing changes. *)
Definition overlay (c : Canvas) (op : CompositeOp) : Canvas :=
  {| cwidth := cwidth c; cheight := cheight c;
     pixel := fun x y =>
                if covers op x y
                then opaque (rgb (input op) (x - left op) (y - top op))
                else pixel c x y |}.

Definition fits (c : Canvas) (op : CompositeOp) : bool :=
  (width (input op) <=? cwidth c) && (height (input op) <=? cheight c).

(** [.composite(ops)]: an overlay larger than the canvas is refused; the
    others are drawn in the order of the array. *)
Definition composite (c : Canvas) (ops : list CompositeOp) : Result Canvas :=
  if forallb (fits c) ops
  then Done (fold_left overlay ops c)
  else Failed "Image to composite must have same dimensions or smaller".

(** The output of [.png().toBuffer()].  PNG is lossless: the buffer is
    identified with the raster it encodes. *)
Definition Buffer := Canvas.

End Sharp.

(** ** [stitchScreenshots] *)

Module Stitch.
Import Sharp.

(** [{ image: screenshot, position: scrollPos }] *)
Record Shot := { image : Image; position : Z }.

(** [shot => ({ input: shot.image, top: shot.position, left: 0 })] *)
Definition compositeOperation (shot : Shot) : CompositeOp :=
  {| input := image shot; top := position shot; left := 0 |}.

(** The value the promise returned by [stitchScreenshots] settles to
    ([viewportHeight] is not used by the source either). *)
Definition stitchScreenshots (screenshots : list Shot)
    (fullHeight viewportWidth viewportHeight : Z) : Result Buffer :=
  match create {| create_width := viewportWidth;
                  create_height := fullHeight;
                  channels := 4;
                  background := {| r := 255; g := 255; b := 255; alpha := 1 |} |}
  with
  | Failed msg => Failed msg
  | Done finalImage =>
      let compositeOperations := map compositeOperation screenshots in
      composite finalImage compositeOperations
  end.

(** The pixels of the canvas a shot is drawn on: columns from 0, rows from
    its scroll position. *)
Definition shotCovers (shot : Shot) (x y : Z) : bool :=
  covers (compositeOperation shot) x y.

(** The pixel of a shot that lands on the pixel [(x, y)] of the canvas. *)
Definition shotPixel (shot : Shot) (x y : Z) : RGBA :=
  opaque (rgb (image shot) x (y - position shot)).

Definition white : RGBA := {| r := 255; g := 255; b := 255; alpha := 1 |}.

End Stitch.

(** ** [convertFixedElementsToAbsolute]: the function evaluated in the page *)

Module DOM.

Inductive Position := Static | Relative | Absolute | Fixed | Sticky.

Definition Position_eqb (p q : Position) : bool :=
  match p, q with
  | Static, Static | Relative, Relative | Absolute, Absolute
  | Fixed, Fixed | Sticky, Sticky => true
  | _, _ => false
  end.

(** A value of [top], [left], [bottom] or [right]: the template string
    [`${n}px`], ['auto'], or whatever the page had written there. *)
Inductive Length := Px (n : Z) | Auto | Css (value : string).

(** [element.style]; [None] is a property the element does not set. *)
Record InlineStyle :=
  { position : option Position;
    top : option Length; left : option Length;
    bottom : option Length; right : option Length }.

(** An element: its identity, the position the style sheets give it, its
    inline style and its children. *)
Inductive Element :=
| Node (id : nat) (sheetPosition : Position) (style : InlineStyle)
       (children : list Element).

Record DOMRect := { rect_top : Z; rect_left : Z }.

(** What the traversal reads from the browser: the two scroll offsets and
    the rectangle [getBoundingClientRect] reports for an element when the
    traversal reaches it. *)
Record Window :=
  { pageYOffset : Z;
    documentElement_scrollTop : Z;
    getBoundingClientRect : nat -> DOMRect }.

(** The cascade: an inline declaration of [position] wins over the style
    sheets. *)
Definition inlineWins (sheet : Position) (inline : option Position) : Position :=
  match inline with
  | Some p => p
  | None => sheet
  end.


Section Normalizer.

(** [getComputedStyle(element).position] as a function of the style
    sheets' value and of the inline one. *)
Variable cascade : Position -> option Position -> Position.

Definition computedPosition (e : Element) : Position :=
  match e with
  | Node _ sheet style _ => cascade sheet (position style)
  end.

Variable window : Window.

(** [window.pageYOffset || document.documentElement.scrollTop] *)
Definition scrollTop : Z :=
  if pageYOffset window =? 0
  then documentElement_scrollTop window
  else pageYOffset window.

Fixpoint convertToAbsolute (element : Element) : Element :=
  match element with
  | Node id sheet style children =>
      let style :=
        if Position_eqb (cascade sheet (position style)) Fixed then
          let rect := getBoundingClientRect window id in
          {| position := Some Absolute;
             top := Some (Px (rect_top rect + scrollTop));
             left := Some (Px (rect_left rect));
             bottom := Some Auto;
             right := Some Auto |}
        else style in
      Node id sheet style (map convertToAbsolute children)
  end.

End Normalizer.

Definition styleOf (e : Element) : InlineStyle :=
  match e with Node _ _ style _ => style end.

Definition childrenOf (e : Element) : list Element :=
  match e with Node _ _ _ children => children end.

End DOM.


(** ** The capture session: [takeScreenshotsOfPage] and
       [captureFullPageScreenshot]

    A call on the browser or on the page is an effect.  It is appended to
    the trace of the run, and whether it succeeds is read from the
    environment, which is arbitrary: any call may fail at any occurrence.
    Stitching works on buffers the run already holds: it is the function of
    [Module Stitch], and fails when [sharp] refuses its input.  A loop that
    does not reach its [break] pushes until the array can grow no more:
    [positions.push] then throws a [RangeError], inside the [try] blocks of
    the caller like any other error. *)

Module Session.
Import Planner Sharp Stitch.

(** The operations on the browser and on the page that the module awaits. *)
Inductive Op :=
| Launch | NewPage | Goto | Authenticate | WaitForTimeout
| Evaluate | Screenshot | Close.

Definition Op_eqb (a b : Op) : bool :=
  match a, b with
  | Launch, Launch | NewPage, NewPage | Goto, Goto
  | Authenticate, Authenticate | WaitForTimeout, WaitForTimeout
  | Evaluate, Evaluate | Screenshot, Screenshot | Close, Close => true
  | _, _ => false
  end.

(** Values thrown: by [new URL], by a rejected operation, by [sharp], and
    by [positions.push] on an array that the engine cannot grow any more. *)
Inductive Error :=
| InvalidURL (url : string)
| Rejected (op : Op) (msg : string)
| SharpFailure (msg : string)
| RangeError (msg : string).

(** The three functions the module evaluates in the page. *)
Inductive Script :=
| ConvertFixedElements
| MeasureFullHeight
| ScrollTo (pos : Z).

Inductive Event :=
| EvLaunch (viewportWidth viewportHeight : Z) (executablePath : option string)
| EvNewPage
| EvSetDefaultNavigationTimeout (ms : Z)
| EvGoto (url : string) (timeout : Z)
| EvAuthenticate (username password : string)
| EvWaitForTimeout (ms : Z)
| EvEvaluate (script : Script)
| EvScreenshot
| EvClose
| EvConsoleError (label : option string) (e : Error).

Definition opOf (ev : Event) : option Op :=
  match ev with
  | EvLaunch _ _ _ => Some Launch
  | EvNewPage => Some NewPage
  | EvGoto _ _ => Some Goto
  | EvAuthenticate _ _ => Some Authenticate
  | EvWaitForTimeout _ => Some WaitForTimeout
  | EvEvaluate _ => Some Evaluate
  | EvScreenshot => Some Screenshot
  | EvClose => Some Close
  | EvSetDefaultNavigationTimeout _ | EvConsoleError _ _ => None
  end.

Definition isOp (op : Op) (ev : Event) : bool :=
  match opOf ev with
  | Some o => Op_eqb o op
  | None => false
  end.

(** How many times [op] has been called so far. *)
Definition calls (op : Op) (tr : list Event) : nat :=
  List.length (filter (isOp op) tr).

(** The world outside the module.  [fault op k] is the message with which
    the call number [k] (from 0) of [op] is rejected, if it is;
    [measuredHeight k] is the page height the evaluation number [k] reports,
    [viewportImage k] the picture the screenshot number [k] takes. *)
Record Env :=
  { validURL : string -> bool;
    chromium_executablePath : option string;
    fault : Op -> nat -> option string;
    measuredHeight : nat -> Z;
    viewportImage : nat -> Image }.

(** [browser] is the variable declared by [let browser;] ([false]:
    undefined), which the [finally] block reads. *)
Record State := { browser : bool; trace : list Event }.

Definition initial : State := {| browser := false; trace := [] |}.

(** How an awaited computation ends: with a value, with an error thrown,
    or not at all (a promise that never settles). *)
Inductive Outcome (A : Type) : Type :=
| Returns (a : A)
| Throws (e : Error)
| Hangs.
Arguments Returns {A} a.
Arguments Throws {A} e.
Arguments Hangs {A}.

Definition M (A : Type) : Type := State -> Outcome A * State.

Definition ret {A} (a : A) : M A := fun st => (Returns a, st).

Definition bind {A B} (m : M A) (k : A -> M B) : M B :=
  fun st =>
    match m st with
    | (Returns a, st') => k a st'
    | (Throws e, st') => (Throws e, st')
    | (Hangs, st') => (Hangs, st')
    end.

Definition throw {A} (e : Error) : M A := fun st => (Throws e, st).

Notation "x <- m ;; k" := (bind m (fun x => k))
  (at level 61, m at next level, right associativity).
Notation "m ;; k" := (bind m (fun _ => k))
  (at level 61, right associativity).

(** [try { m } catch (e) { h e }] *)
Definition try_catch {A} (m : M A) (h : Error -> M A) : M A :=
  fun st =>
    match m st with
    | (Throws e, st') => h e st'
    | r => r
    end.

(** [try { m } finally { c }]: [c] runs after [m] has returned or thrown;
    if [c] throws, its error replaces the completion of [m]. *)
Definition try_finally {A} (m : M A) (c : M unit) : M A :=
  fun st =>
    match m st with
    | (Hangs, st') => (Hangs, st')
    | (r, st') =>
        match c st' with
        | (Returns _, st'') => (r, st'')
        | (Throws e, st'') => (Throws e, st'')
        | (Hangs, st'') => (Hangs, st'')
        end
    end.

Definition record (ev : Event) (st : State) : State :=
  {| browser := browser st; trace := trace st ++ [ev] |}.

(** A synchronous call that cannot fail. *)
Definition log (ev : Event) : M unit := fun st => (Returns tt, record ev st).

(** [console.error(label, e)], or [console.error(e)] when it is passed as a
    handler. *)
Definition console_error (label : option string) (e : Error) : M unit :=
  log (EvConsoleError label e).

(** Awaiting a promise of [sharp]: its value, or its error thrown. *)
Definition settle {A} (r : Result A) : M A :=
  match r with
  | Done a => ret a
  | Failed msg => throw (SharpFailure msg)
  end.

(** JavaScript truth of a string that may be undefined. *)
Definition truthy (s : option string) : bool :=
  match s with
  | Some s => negb (String.eqb s "")
  | None => false
  end.

Definition orEmpty (s : option string) : string :=
  match s with Some s => s | None => "" end.

(** The [options] argument; [None] is a property that is absent. *)
Record Options :=
  { opt_viewportWidth : option Z;
    opt_viewportHeight : option Z;
    opt_overlap : option Z;
    opt_useScraperApi : option bool;
    opt_proxyUsername : option string;
    opt_proxyPassword : option string;
    opt_executablePathOverride : option string }.

Definition noOptions : Options :=
  {| opt_viewportWidth := None; opt_viewportHeight := None;
     opt_overlap := None; opt_useScraperApi := None;
     opt_proxyUsername := None; opt_proxyPassword := None;
     opt_executablePathOverride := None |}.

Definition orDefault {A} (d : A) (o : option A) : A :=
  match o with Some a => a | None => d end.

Section Run.

Variable env : Env.

(** An awaited operation: recorded, then resolved or rejected as the
    environment decides. *)
Definition perform (op : Op) (ev : Event) : M unit :=
  fun st =>
    match fault env op (calls op (trace st)) with
    | Some msg => (Throws (Rejected op msg), record ev st)
    | None => (Returns tt, record ev st)
    end.

Definition waitForTimeout (ms : Z) : M unit :=
  perform WaitForTimeout (EvWaitForTimeout ms).

Definition evaluate (script : Script) : M unit :=
  perform Evaluate (EvEvaluate script).

(** The in-page effect of this call is [DOM.convertToAbsolute] on
    [document.body]. *)
Definition convertFixedElementsToAbsolute : M unit :=
  evaluate ConvertFixedElements.

Definition evaluateFullHeight : M Z :=
  fun st =>
    bind (evaluate MeasureFullHeight)
         (fun _ => ret (measuredHeight env (calls Evaluate (trace st)))) st.

Definition screenshot : M Image :=
  fun st =>
    bind (perform Screenshot EvScreenshot)
         (fun _ => ret (viewportImage env (calls Screenshot (trace st)))) st.

(** The number of elements the engine lets the [while (true)] loop of the
    planner push.  A loop that has not reached its [break] by then is ended
    by the [RangeError] of [positions.push]. *)
Variable fuel : nat.

(** The [for (const scrollPos of positions)] loop. *)
Fixpoint captureEach (positions : list Z) (counter : Z)
    (screenshots : list Shot) : M (list Shot) :=
  match positions with
  | [] => ret screenshots
  | scrollPos :: rest =>
      evaluate (ScrollTo scrollPos) ;;
      (if counter =? 0 then waitForTimeout 2000 else waitForTimeout 500) ;;
      let counter := counter + 1 in
      shot <- screenshot ;;
      captureEach rest counter
        (screenshots ++ [{| image := shot; position := scrollPos |}])
  end.

Definition takeScreenshotsOfPage (viewportHeight : Z) (overlap : option Z)
  : M (list Shot * Z) :=
  let overlap := orDefault 100 overlap in
  convertFixedElementsToAbsolute ;;
  fullHeight <- evaluateFullHeight ;;
  positions <- match planPositions fullHeight viewportHeight overlap fuel with
               | Some positions => ret positions
               | None => throw (RangeError "Invalid array length")
               end ;;
  screenshots <- captureEach positions 0 [] ;;
  ret (screenshots, fullHeight).

Section Capture.

Variables (url : string) (options : Options).

Let viewportWidth := orDefault 1366 (opt_viewportWidth options).
Let viewportHeight := orDefault 768 (opt_viewportHeight options).
Let overlap := orDefault 100 (opt_overlap options).
Let useScraperApi := orDefault false (opt_useScraperApi options).
Let proxyUsername := opt_proxyUsername options.
Let proxyPassword := opt_proxyPassword options.
Let executablePathOverride := opt_executablePathOverride options.

(** [useScraperApi && proxyUsername && proxyPassword] *)
Definition proxyConfigured : bool :=
  useScraperApi && truthy proxyUsername && truthy proxyPassword.

Definition goto : M unit := perform Goto (EvGoto url 120000).

Definition processPage : M Buffer :=
  waitForTimeout 4000 ;;
  r <- takeScreenshotsOfPage viewportHeight (Some overlap) ;;
  let '(screenshots, fullHeight) := r in
  settle (stitchScreenshots screenshots fullHeight viewportWidth viewportHeight).

(** The inner [try ... catch (navigationError)]. *)
Definition firstAttemptOrRetry : M Buffer :=
  try_catch
    (goto ;;
     processPage)
    (fun navigationError =>
       console_error (Some "Navigation error on first attempt:"%string)
         navigationError ;;
       if proxyConfigured then
         perform Authenticate
           (EvAuthenticate (orEmpty proxyUsername) (orEmpty proxyPassword)) ;;
         goto ;;
         processPage
       else
         throw navigationError).

(** The assignment to [browser], once [launch] has resolved. *)
Definition setBrowser : M unit :=
  fun st => (Returns tt, {| browser := true; trace := trace st |}).

(** The block of the outer [try]. *)
Definition pipeline : M Buffer :=
  (if validURL env url then ret tt else throw (InvalidURL url)) ;;
  perform Launch
    (EvLaunch viewportWidth viewportHeight
       (if truthy executablePathOverride then executablePathOverride
        else chromium_executablePath env)) ;;
  setBrowser ;;
  perform NewPage EvNewPage ;;
  log (EvSetDefaultNavigationTimeout 120000) ;;
  finalBuffer <- firstAttemptOrRetry ;;
  ret finalBuffer.

(** The block of [finally]:
    [if (browser) await browser.close().catch(console.error)]. *)
Definition cleanup : M unit :=
  fun st =>
    if browser st
    then try_catch (perform Close EvClose) (console_error None) st
    else ret tt st.

Definition captureFullPageScreenshot : M Buffer :=
  try_finally pipeline cleanup.

End Capture.

End Run.

(** The same environment with another outcome for [browser.close()]. *)
Definition withClose (env : Env) (closeFault : nat -> option string) : Env :=
  {| validURL := validURL env;
     chromium_executablePath := chromium_executablePath env;
     fault := fun op k =>
                match op with
                | Close => closeFault k
                | _ => fault env op k
                end;
     measuredHeight := measuredHeight env;
     viewportImage := viewportImage env |}.

End Session.

(** ** What a computation adds to the trace *)

Module Traces.
Import Session.

(** Every event a computation adds to the trace satisfies [Q]. *)
Definition appends {A} (Q : Event -> Prop) (m : M A) : Prop :=
  forall st, exists tr,
    trace (snd (m st)) = trace st ++ tr /\ Forall Q tr.

(** The events of [processPage]. *)
Definition pageEvent (ev : Event) : Prop :=
  match ev with
  | EvWaitForTimeout _ | EvEvaluate _ | EvScreenshot => True
  | _ => False
  end.

(** The events of the [finally] block. *)
Definition closeEvent (ev : Event) : Prop :=
  match ev with
  | EvClose | EvConsoleError _ _ => True
  | _ => False
  end.


End Traces.

(** ** Sample inputs *)

Module Samples.
Import Sharp Stitch.

Definition plain (w h : Z) (c : RGB) : Image :=
  {| width := w; height := h; rgb := fun _ _ => c |}.

Definition red_ : RGB := {| red := 255; green := 0; blue := 0 |}.
Definition blue_ : RGB := {| red := 0; green := 0; blue := 255 |}.

(** Two tiles of 800 x 600 taken at offsets 0 and 400: rows 400 to 599 are on
    both. *)
Definition upperShot : Shot := {| image := plain 800 600 red_; position := 0 |}.
Definition lowerShot : Shot := {| image := plain 800 600 blue_; position := 400 |}.

(** A page whose body holds a fixed banner at the top of the viewport and a
    static paragraph. *)
Definition unset : DOM.InlineStyle :=
  {| DOM.position := None; DOM.top := None; DOM.left := None;
     DOM.bottom := None; DOM.right := None |}.

Definition bannerPage : DOM.Element :=
  DOM.Node 0 DOM.Static unset
    [DOM.Node 1 DOM.Fixed unset [DOM.Node 2 DOM.Static unset []];
     DOM.Node 3 DOM.Static unset []].

(** The window before any scrolling, and after scrolling by 500 pixels; the
    banner, were it still fixed, would be reported at the top of the
    viewport in both. *)
Definition windowAt (y : Z) : DOM.Window :=
  {| DOM.pageYOffset := y;
     DOM.documentElement_scrollTop := y;
     DOM.getBoundingClientRect :=
       fun _ => {| DOM.rect_top := 0; DOM.rect_left := 0 |} |}.

(** A world in which every call succeeds, on a page of 2000 pixels. *)
Definition calmEnv : Session.Env :=
  {| Session.validURL := fun _ => true;
     Session.chromium_executablePath := None;
     Session.fault := fun _ _ => None;
     Session.measuredHeight := fun _ => 2000;
     Session.viewportImage := fun _ => plain 1366 768 red_ |}.

(** The same world, except that the first screenshot is rejected. *)
Definition firstScreenshotFails : Session.Env :=
  {| Session.validURL := fun _ => true;
     Session.chromium_executablePath := None;
     Session.fault := fun op k =>
       match op, k with
       | Session.Screenshot, O => Some "Protocol error"%string
       | _, _ => None
       end;
     Session.measuredHeight := fun _ => 2000;
     Session.viewportImage := fun _ => plain 1366 768 red_ |}.

(** The same world, except that every navigation fails. *)
Definition unreachable : Session.Env :=
  {| Session.validURL := fun _ => true;
     Session.chromium_executablePath := None;
     Session.fault := fun op _ =>
       match op with
       | Session.Goto => Some "net::ERR_TIMED_OUT"%string
       | _ => None
       end;
     Session.measuredHeight := fun _ => 2000;
     Session.viewportImage := fun _ => plain 1366 768 red_ |}.

(** The same world, except that closing the browser fails. *)
Definition closeFails : Session.Env :=
  Session.withClose calmEnv (fun _ => Some "Target closed"%string).

Definition proxyOptions : Session.Options :=
  {| Session.opt_viewportWidth := None;
     Session.opt_viewportHeight := None;
     Session.opt_overlap := None;
     Session.opt_useScraperApi := Some true;
     Session.opt_proxyUsername := Some "user"%string;
     Session.opt_proxyPassword := Some "key"%string;
     Session.opt_executablePathOverride := None |}.

(** An overlap equal to the default viewport height. *)
Definition overlap768 : Session.Options :=
  {| Session.opt_viewportWidth := None;
     Session.opt_viewportHeight := None;
     Session.opt_overlap := Some 768;
     Session.opt_useScraperApi := None;
     Session.opt_proxyUsername := None;
     Session.opt_proxyPassword := None;
     Session.opt_executablePathOverride := None |}.

Definition exampleURL : string := "https://example.com".

End Samples.

(** ** The page height: lines 45-54 of [takeScreenshotsOfPage] *)

Module Page.

(** The six heights the function evaluated in the page reads. *)
Record Heights :=
  { body_scrollHeight : Z;
    documentElement_scrollHeight : Z;
    body_offsetHeight : Z;
    documentElement_offsetHeight : Z;
    body_clientHeight : Z;
    documentElement_clientHeight : Z }.

(** [Math.max] of the six. *)
Definition fullHeight (document : Heights) : Z :=
  Z.max (body_scrollHeight document)
    (Z.max (documentElement_scrollHeight document)
       (Z.max (body_offsetHeight document)
          (Z.max (documentElement_offsetHeight document)
             (Z.max (body_clientHeight document)
                (documentElement_clientHeight document))))).

End Page.

(** ** Descriptions of plans, trees and runs used by the properties *)

Module Describe.
Import Session.

(** Adjacent offsets are at most [d] apart. *)
Fixpoint steps_at_most (d : Z) (l : list Z) : Prop :=
  match l with
  | a :: (b :: _) as t => b - a <= d /\ steps_at_most d t
  | _ => True
  end.

(** An element and all its descendants, in the order of the traversal. *)
Fixpoint elements (e : DOM.Element) : list DOM.Element :=
  match e with
  | DOM.Node _ _ _ children => e :: flat_map elements children
  end.

(** The inline style that pins an element to the page at the place where
    the window shows it. *)
Definition pinned (w : DOM.Window) (id : nat) : DOM.InlineStyle :=
  {| DOM.position := Some DOM.Absolute;
     DOM.top := Some (DOM.Px (DOM.rect_top (DOM.getBoundingClientRect w id)
                              + DOM.scrollTop w));
     DOM.left := Some (DOM.Px (DOM.rect_left (DOM.getBoundingClientRect w id)));
     DOM.bottom := Some DOM.Auto;
     DOM.right := Some DOM.Auto |}.

(** The pixel [(x, y)] of the page lies on a tile: in one of its columns,
    counted from 0, and in one of its rows, counted from its offset. *)
Definition onTile (shot : Stitch.Shot) (x y : Z) : Prop :=
  0 <= x < Sharp.width (Stitch.image shot) /\
  Stitch.position shot <= y
    < Stitch.position shot + Sharp.height (Stitch.image shot).

(** The tiles cover the rows [0] to [totalHeight - 1] of the page. *)
Definition rowsCovered (screenshots : list Stitch.Shot) (totalHeight : Z)
  : Prop :=
  forall y, 0 <= y < totalHeight ->
    exists shot,
      In shot screenshots /\
      Stitch.position shot <= y
        < Stitch.position shot + Sharp.height (Stitch.image shot).



Definition isRangeError (e : Error) : Prop :=
  match e with
  | RangeError _ => True
  | _ => False
  end.

(** The canvas [stitchScreenshots] starts from. *)
Definition blankCanvas (width height : Z) : Sharp.Canvas :=
  {| Sharp.cwidth := width; Sharp.cheight := height;
     Sharp.pixel := fun _ _ =>
       {| Sharp.r := 255; Sharp.g := 255; Sharp.b := 255; Sharp.alpha := 1 |} |}.

(** A computation appends events that satisfy [Q] and leaves the variable
    [browser] alone. *)
Definition steady {A} (Q : Event -> Prop) (m : M A) : Prop :=
  forall st, exists tr,
    snd (m st) = {| browser := browser st; trace := trace st ++ tr |} /\
    Forall Q tr.

(** A computation appends at most [n] calls of [op]. *)
Definition bounded {A} (op : Op) (n : nat) (m : M A) : Prop :=
  forall st, exists tr,
    trace (snd (m st)) = trace st ++ tr /\ (calls op tr <= n)%nat.

(** A computation returns or throws. *)
Definition halts {A} (m : M A) : Prop :=
  forall st, fst (m st) <> Hangs.

(** An event that is not the logging of a [RangeError]. *)
Definition noRangeErrorLogged (ev : Event) : Prop :=
  match ev with
  | EvConsoleError _ e => ~ isRangeError e
  | _ => True
  end.

(** A computation neither throws nor logs a [RangeError]. *)
Definition tidy {A} (m : M A) : Prop :=
  forall st,
    (forall e, fst (m st) = Throws e -> ~ isRangeError e) /\
    exists tr,
      trace (snd (m st)) = trace st ++ tr /\ Forall noRangeErrorLogged tr.

(** Every event but the closing of the browser. *)
Definition notClose (ev : Event) : Prop := isOp Close ev = false.

(** The events of the capture loop on a list of offsets; [first] tells
    whether the first offset of the list is the first of the plan. *)
Fixpoint tileEvents (first : bool) (positions : list Z) : list Event :=
  match positions with
  | [] => []
  | scrollPos :: rest =>
      EvEvaluate (ScrollTo scrollPos)
      :: EvWaitForTimeout (if first then 2000 else 500)
      :: EvScreenshot
      :: tileEvents false rest
  end.

(** The shots of the capture loop when the screenshots taken are number
    [k], [k + 1], ... of the run. *)
Fixpoint shotsFrom (env : Env) (k : nat) (positions : list Z)
  : list Stitch.Shot :=
  match positions with
  | [] => []
  | scrollPos :: rest =>
      {| Stitch.image := viewportImage env k; Stitch.position := scrollPos |}
      :: shotsFrom env (S k) rest
  end.

End Describe.

(** ** [ensureDirectoryExists] and [saveScreenshotToFile]

    The two calls on the file system and [console.log] are recorded in a
    trace of their own; their outcome is read from an environment. *)

Module Files.
Import Session.

Inductive FsEvent :=
| FsMkdir (directory : string)
| FsWriteFile (file : string) (data : Sharp.Buffer)
| ConsoleLog (message : string).

(** An error of [fs.promises]; [code] may be absent. *)
Record FsError := { code : option string; message : string }.

(** [path.dirname], and the errors with which [mkdir] and [writeFile] are
    rejected, if they are. *)
Record FsEnv :=
  { dirname : string -> string;
    mkdirError : option FsError;
    writeFileError : option FsError }.

(** What [saveScreenshotToFile] may throw. *)
Inductive Failure :=
| CaptureFailed (e : Error)
| FsFailed (e : FsError).

Inductive Completion :=
| Saved
| Failed (f : Failure)
| Stuck.

(** [error.code !== 'EEXIST'] *)
Definition notEEXIST (error : FsError) : bool :=
  match code error with
  | Some c => negb (String.eqb c "EEXIST")
  | None => true
  end.

(** [ensureDirectoryExists]: the error thrown, if any, and the trace. *)
Definition ensureDirectoryExists (fs : FsEnv) (filePath : string)
    (events : list FsEvent) : option FsError * list FsEvent :=
  let directory := dirname fs filePath in
  let events := events ++ [FsMkdir directory] in
  match mkdirError fs with
  | None => (None, events)
  | Some error =>
      if notEEXIST error then (Some error, events) else (None, events)
  end.

(** The options [saveScreenshotToFile] passes. *)
Definition savedOptions : Options :=
  {| opt_viewportWidth := Some 1770;
     opt_viewportHeight := Some 1000;
     opt_overlap := Some 100;
     opt_useScraperApi := Some true;
     opt_proxyUsername :=
       Some "scraperapi.autoparse=true.retry_404=true.country_code=eu.device_type=desktop"%string;
     opt_proxyPassword := Some "140fc0c3c72da4f26bb7efd5df866b15"%string;
     opt_executablePathOverride := None |}.

Definition saveScreenshotToFile (env : Env) (fs : FsEnv) (fuel : nat)
    (url outputFile : string)
  : Completion * State * list FsEvent :=
  match captureFullPageScreenshot env fuel url savedOptions initial with
  | (Hangs, st) => (Stuck, st, [])
  | (Throws e, st) => (Failed (CaptureFailed e), st, [])
  | (Returns buffer, st) =>
      match ensureDirectoryExists fs outputFile [] with
      | (Some error, events) => (Failed (FsFailed error), st, events)
      | (None, events) =>
          let events := events ++ [FsWriteFile outputFile buffer] in
          match writeFileError fs with
          | Some error => (Failed (FsFailed error), st, events)
          | None =>
              (Saved, st,
               events ++ [ConsoleLog ("Saved screenshot to " ++ outputFile)%string])
          end
      end
  end.

End Files.

(** ** More sample inputs *)

Module MoreSamples.

(** A body with two paragraphs and nothing fixed. *)
Definition plainPage : DOM.Element :=
  DOM.Node 0 DOM.Static Samples.unset
    [DOM.Node 1 DOM.Relative Samples.unset [];
     DOM.Node 2 DOM.Static Samples.unset []].

(** A fixed header that holds a fixed badge. *)
Definition nestedFixedPage : DOM.Element :=
  DOM.Node 0 DOM.Static Samples.unset
    [DOM.Node 1 DOM.Fixed Samples.unset
       [DOM.Node 2 DOM.Fixed Samples.unset []]].

(** Three tiles of 800 x 1000 at the offsets of the plan for a page of 2000
    pixels with an overlap of 100. *)
Definition threeShots : list Stitch.Shot :=
  [ {| Stitch.image := Samples.plain 800 1000 Samples.red_; Stitch.position := 0 |};
    {| Stitch.image := Samples.plain 800 1000 Samples.blue_; Stitch.position := 900 |};
    {| Stitch.image := Samples.plain 800 1000 Samples.red_; Stitch.position := 1000 |} ].

(** A tile of 768 rows taken at offset 0; it covers a page of 600 rows. *)
Definition tallShot : Stitch.Shot :=
  {| Stitch.image := Samples.plain 1366 768 Samples.red_;
     Stitch.position := 0 |}.

(** A document of 2000 pixels shown in a window of 768. *)
Definition tallDocument : Page.Heights :=
  {| Page.body_scrollHeight := 2000;
     Page.documentElement_scrollHeight := 2000;
     Page.body_offsetHeight := 1984;
     Page.documentElement_offsetHeight := 2000;
     Page.body_clientHeight := 1984;
     Page.documentElement_clientHeight := 768 |}.

(** A file system on which everything succeeds; [dirname] is not computed. *)
Definition calmFs : Files.FsEnv :=
  {| Files.dirname := fun _ => "./output"%string;
     Files.mkdirError := None;
     Files.writeFileError := None |}.

(** The directory is there already. *)
Definition existingDirFs : Files.FsEnv :=
  {| Files.dirname := fun _ => "./output"%string;
     Files.mkdirError :=
       Some {| Files.code := Some "EEXIST"%string;
               Files.message := "file already exists"%string |};
     Files.writeFileError := None |}.

(** The directory cannot be created. *)
Definition deniedFs : Files.FsEnv :=
  {| Files.dirname := fun _ => "/root/output"%string;
     Files.mkdirError :=
       Some {| Files.code := Some "EACCES"%string;
               Files.message := "permission denied"%string |};
     Files.writeFileError := None |}.

(** A world in which every call succeeds, with screenshots of 1770 x 1000. *)
Definition calmWideEnv : Session.Env :=
  {| Session.validURL := fun _ => true;
     Session.chromium_executablePath := None;
     Session.fault := fun _ _ => None;
     Session.measuredHeight := fun _ => 2000;
     Session.viewportImage := fun _ => Samples.plain 1770 1000 Samples.red_ |}.

(** A world in which the URL is refused. *)
Definition badURLEnv : Session.Env :=
  {| Session.validURL := fun _ => false;
     Session.chromium_executablePath := None;
     Session.fault := fun _ _ => None;
     Session.measuredHeight := fun _ => 2000;
     Session.viewportImage := fun _ => Samples.plain 1366 768 Samples.red_ |}.

(** A world in which the browser does not start. *)
Definition noBrowserEnv : Session.Env :=
  {| Session.validURL := fun _ => true;
     Session.chromium_executablePath := None;
     Session.fault := fun op _ =>
       match op with
       | Session.Launch => Some "Failed to launch the browser process"%string
       | _ => None
       end;
     Session.measuredHeight := fun _ => 2000;
     Session.viewportImage := fun _ => Samples.plain 1366 768 Samples.red_ |}.

End MoreSamples.

(** * Properties *)

Import Planner.

(** ** The scroll planner *)

Section PlannerFacts.

Variables (fullHeight viewportHeight overlap : Z).

Local Abbreviation collect := (collect fullHeight viewportHeight overlap).
Local Abbreviation chain := (chain fullHeight viewportHeight overlap).
Local Abbreviation finalPos := (finalPos fullHeight viewportHeight).
Local Abbreviation snapNeeded := (snapNeeded fullHeight viewportHeight overlap).
Local Abbreviation snap := (snap fullHeight viewportHeight overlap).
Local Abbreviation planPositions := (planPositions fullHeight viewportHeight overlap).

(** The test on [overlap / 2], cleared of its denominator. *)
Lemma snapNeeded_spec (positions : list Z) :
  snapNeeded positions = (2 * lastPos positions + overlap <? 2 * finalPos).
Proof.
  unfold Planner.snapNeeded.
  set (f := finalPos). set (l := lastPos positions).
  destruct (Z.ltb_spec (2 * l + overlap) (2 * f)) as [Hlt | Hge].
  - apply negb_true_iff. apply not_true_is_false. intro Hle.
    apply Qle_bool_iff in Hle. unfold Qle in Hle. simpl in Hle. lia.
  - apply negb_false_iff. apply Qle_bool_iff. unfold Qle. simpl. lia.
Qed.

Lemma collect_chain (fuel : nat) :
  forall acc cur l,
    collect fuel acc cur = Some l ->
    exists tl, l = acc ++ cur :: tl /\ chain cur tl.
Proof.
  induction fuel as [| fuel IH]; intros acc cur l Hc; simpl in Hc.
  - discriminate.
  - destruct (Z.gtb_spec (cur + (viewportHeight - overlap) + viewportHeight)
                fullHeight) as [Hgt | Hle].
    + injection Hc as <-. exists []. split; [reflexivity | simpl; lia].
    + apply IH in Hc as (tl & -> & Hch).
      exists ((cur + (viewportHeight - overlap)) :: tl).
      rewrite <- app_assoc. split; [reflexivity |].
      simpl. repeat split; [lia | exact Hch].
Qed.

Lemma collect_mono (fuel : nat) :
  forall fuel' acc cur l,
    (fuel <= fuel')%nat ->
    collect fuel acc cur = Some l -> collect fuel' acc cur = Some l.
Proof.
  induction fuel as [| fuel IH]; intros fuel' acc cur l Hle Hc; simpl in Hc.
  - discriminate.
  - destruct fuel' as [| fuel']; [lia |]. simpl.
    destruct (cur + (viewportHeight - overlap) + viewportHeight >? fullHeight).
    + exact Hc.
    + apply IH; [lia | exact Hc].
Qed.

(** With a positive step the loop reaches its [break]. *)
Lemma collect_terminates (fuel : nat) :
  forall acc cur,
    overlap < viewportHeight ->
    (Z.to_nat (fullHeight - viewportHeight - cur) < fuel)%nat ->
    exists l, collect fuel acc cur = Some l.
Proof.
  induction fuel as [| fuel IH]; intros acc cur Hstep Hfuel; [lia |].
  simpl.
  destruct (Z.gtb_spec (cur + (viewportHeight - overlap) + viewportHeight)
              fullHeight) as [Hgt | Hle].
  - eexists; reflexivity.
  - apply IH; [exact Hstep | lia].
Qed.


Lemma planPositions_mono (fuel fuel' : nat) (plan : list Z) :
  (fuel <= fuel')%nat ->
  planPositions fuel = Some plan -> planPositions fuel' = Some plan.
Proof.
  unfold Planner.planPositions. intros Hle Hp.
  destruct (collect fuel [] 0) as [l |] eqn:Hc; [| discriminate].
  rewrite (collect_mono fuel fuel' [] 0 l Hle Hc). exact Hp.
Qed.

Lemma chain_increasing (tl : list Z) :
  forall cur,
    overlap < viewportHeight -> chain cur tl -> strictly_increasing (cur :: tl).
Proof.
  induction tl as [| p tl IH]; intros cur Hstep Hch; [exact I |].
  destruct Hch as (-> & Hb & Hch). split; [lia |].
  apply IH; assumption.
Qed.

Lemma chain_in (tl : list Z) :
  forall cur p, chain cur tl -> In p tl -> p + viewportHeight <= fullHeight.
Proof.
  induction tl as [| q tl IH]; intros cur p Hch Hin; [destruct Hin |].
  destruct Hch as (Hq & Hb & Hch). destruct Hin as [<- | Hin].
  - exact Hb.
  - eapply IH; eassumption.
Qed.

Lemma chain_nonneg (tl : list Z) :
  forall cur p,
    overlap < viewportHeight -> 0 <= cur -> chain cur tl -> In p tl -> 0 <= p.
Proof.
  induction tl as [| q tl IH]; intros cur p Hstep Hcur Hch Hin; [destruct Hin |].
  destruct Hch as (Hq & Hb & Hch). destruct Hin as [<- | Hin].
  - lia.
  - apply (IH q p); [exact Hstep | lia | exact Hch | exact Hin].
Qed.

Lemma last_cons_ge (tl : list Z) :
  forall cur, strictly_increasing (cur :: tl) -> cur <= last (cur :: tl) 0.
Proof.
  induction tl as [| p tl IH]; intros cur Hinc; [simpl; lia |].
  destruct Hinc as (Hlt & Hinc). specialize (IH p Hinc).
  change (last (cur :: p :: tl) 0) with (last (p :: tl) 0). lia.
Qed.

Lemma strictly_increasing_snoc (l : list Z) (x : Z) :
  l <> [] -> strictly_increasing l -> last l 0 < x ->
  strictly_increasing (l ++ [x]).
Proof.
  induction l as [| a l IH]; intros Hne Hinc Hlast; [congruence |].
  destruct l as [| b l].
  - simpl in *. split; [exact Hlast | exact I].
  - destruct Hinc as (Hab & Hinc).
    change ((a :: b :: l) ++ [x]) with (a :: b :: (l ++ [x])).
    split; [exact Hab |]. apply IH; [discriminate | exact Hinc | exact Hlast].
Qed.

End PlannerFacts.

(** The loop run from an empty array: offset 0 followed by a chain. *)
Lemma planPositions_shape (fullHeight viewportHeight overlap : Z)
    (fuel : nat) (plan : list Z) :
  planPositions fullHeight viewportHeight overlap fuel = Some plan ->
  exists tl,
    chain fullHeight viewportHeight overlap 0 tl /\
    plan = snap fullHeight viewportHeight overlap (0 :: tl).
Proof.
  unfold planPositions. intros Hp.
  destruct (collect fullHeight viewportHeight overlap fuel [] 0)
    as [l |] eqn:Hc; [| discriminate].
  injection Hp as <-.
  apply collect_chain in Hc as (tl & -> & Hch).
  exists tl. split; [exact Hch | reflexivity].
Qed.

Lemma planPositions_terminates (fullHeight viewportHeight overlap : Z)
    (fuel : nat) :
  overlap < viewportHeight ->
  (Z.to_nat (fullHeight - viewportHeight) < fuel)%nat ->
  exists plan, planPositions fullHeight viewportHeight overlap fuel = Some plan.
Proof.
  intros Hstep Hfuel. unfold planPositions.
  destruct (collect_terminates fullHeight viewportHeight overlap fuel [] 0 Hstep)
    as (l & ->).
  - rewrite Z.sub_0_r. exact Hfuel.
  - eexists; reflexivity.
Qed.

Lemma last_snoc (l : list Z) (x d : Z) : last (l ++ [x]) d = x.
Proof.
  induction l as [| a l IH]; [reflexivity |].
  simpl. destruct (l ++ [x]) eqn:E; [destruct l; discriminate | exact IH].
Qed.

(** C1 (as the code has it): for [0 <= overlap < viewportHeight] the loop
    terminates, the offsets of the plan are strictly increasing, the first
    one is 0, and the last one plus [viewportHeight] reaches
    [totalHeight - overlap / 2]: what the plan may leave uncovered at the
    bottom is at most half the overlap. *)
Theorem plan_increasing_from_zero_covers_up_to_half_overlap
    (totalHeight viewportHeight overlap : Z) (fuel : nat) :
  0 <= overlap < viewportHeight ->
  (Z.to_nat (totalHeight - viewportHeight) < fuel)%nat ->
  exists plan,
    planPositions totalHeight viewportHeight overlap fuel = Some plan /\
    strictly_increasing plan /\
    hd_error plan = Some 0 /\
    2 * totalHeight <= 2 * (last plan 0 + viewportHeight) + overlap.
Proof.
  intros Hov Hfuel.
  destruct (planPositions_terminates totalHeight viewportHeight overlap fuel)
    as (plan & Hp); [lia | exact Hfuel |].
  exists plan. split; [exact Hp |].
  apply planPositions_shape in Hp as (tl & Hch & ->).
  assert (Hinc : strictly_increasing (0 :: tl))
    by (apply (chain_increasing totalHeight viewportHeight overlap); [lia | exact Hch]).
  unfold snap. rewrite snapNeeded_spec. fold (lastPos (0 :: tl)).
  unfold lastPos, finalPos.
  destruct (Z.ltb_spec (2 * last (0 :: tl) 0 + overlap)
              (2 * Z.max 0 (totalHeight - viewportHeight))) as [Hlt | Hge].
  - split; [| split].
    + apply strictly_increasing_snoc; [discriminate | exact Hinc | lia].
    + reflexivity.
    + rewrite last_snoc. lia.
  - split; [exact Hinc | split; [reflexivity | lia]].
Qed.

Lemma plan_increasing_from_zero_covers_up_to_half_overlap_witness :
  exists plan,
    planPositions 1930 1000 100 931 = Some plan /\
    strictly_increasing plan /\
    hd_error plan = Some 0 /\
    2 * 1930 <= 2 * (last plan 0 + 1000) + 100.
Proof.
  apply (plan_increasing_from_zero_covers_up_to_half_overlap 1930 1000 100 931).
  - lia.
  - vm_compute. lia.
Defined.

(** C1 fails as stated: on a page of 1930 pixels with a viewport of 1000
    and an overlap of 100 the plan is [0; 900]; the snap offset 930 is not
    appended because it exceeds 900 by less than half the overlap, and the
    last tile ends at 1900, above the bottom of the page. *)
Lemma plan_does_not_reach_bottom :
  planPositions 1930 1000 100 (enoughFuel 1930 1000) = Some [0; 900] /\
  ~ (last [0; 900] 0 + 1000 >= 1930).
Proof.
  split; [vm_compute; reflexivity | simpl; lia].
Qed.

(** C7: a page no taller than the viewport is captured at offset 0 alone. *)
Theorem plan_single_offset_when_page_fits
    (totalHeight viewportHeight overlap : Z) (fuel : nat) :
  0 <= overlap < viewportHeight ->
  totalHeight <= viewportHeight ->
  (0 < fuel)%nat ->
  planPositions totalHeight viewportHeight overlap fuel = Some [0].
Proof.
  intros Hov Hfit Hfuel.
  destruct fuel as [| fuel]; [lia |].
  unfold planPositions. cbn [collect app].
  destruct (Z.gtb_spec (0 + (viewportHeight - overlap) + viewportHeight)
              totalHeight) as [Hgt | Hle]; [| lia].
  unfold snap. rewrite snapNeeded_spec. unfold lastPos, finalPos. simpl last.
  destruct (Z.ltb_spec (2 * 0 + overlap)
              (2 * Z.max 0 (totalHeight - viewportHeight))) as [Hlt | Hge];
    [lia | reflexivity].
Qed.

Lemma plan_single_offset_when_page_fits_witness :
  planPositions 600 768 100 1 = Some [0].
Proof.
  apply (plan_single_offset_when_page_fits 600 768 100 1); lia.
Defined.

(** C9: on a page at least as tall as the viewport, every offset of the
    plan leaves a whole viewport above the bottom of the page (and is not
    negative); the loop terminates. *)
Theorem plan_tiles_within_page
    (totalHeight viewportHeight overlap : Z) (fuel : nat) :
  0 <= overlap < viewportHeight ->
  viewportHeight <= totalHeight ->
  (Z.to_nat (totalHeight - viewportHeight) < fuel)%nat ->
  exists plan,
    planPositions totalHeight viewportHeight overlap fuel = Some plan /\
    forall o, In o plan -> 0 <= o /\ o + viewportHeight <= totalHeight.
Proof.
  intros Hov Htall Hfuel.
  destruct (planPositions_terminates totalHeight viewportHeight overlap fuel)
    as (plan & Hp); [lia | exact Hfuel |].
  exists plan. split; [exact Hp |].
  apply planPositions_shape in Hp as (tl & Hch & ->).
  assert (Hloop : forall o, In o (0 :: tl) ->
                            0 <= o /\ o + viewportHeight <= totalHeight).
  { intros o [<- | Hin]; [lia |]. split.
    - apply (chain_nonneg totalHeight viewportHeight overlap tl 0 o);
        [lia | lia | exact Hch | exact Hin].
    - apply (chain_in totalHeight viewportHeight overlap tl 0 o Hch Hin). }
  unfold snap.
  destruct (snapNeeded totalHeight viewportHeight overlap (0 :: tl));
    [| exact Hloop].
  intros o Hin. apply in_app_or in Hin as [Hin | [<- | []]].
  - apply Hloop, Hin.
  - unfold finalPos. lia.
Qed.

Lemma plan_tiles_within_page_witness :
  exists plan,
    planPositions 2000 768 100 1233 = Some plan /\
    forall o, In o plan -> 0 <= o /\ o + 768 <= 2000.
Proof.
  apply (plan_tiles_within_page 2000 768 100 1233).
  - lia.
  - lia.
  - vm_compute. lia.
Defined.

(** C4 (as the code has it): with a viewport of 768, an overlap of 100 and
    a page of 2000 pixels the loop appends 0 and 668 and stops, since
    1336 + 768 > 2000; the snap offset 1232 exceeds 668 by more than 50 and
    is appended.  The plan is [0; 668; 1232]. *)
Theorem plan_768_100_2000 (fuel : nat) :
  (2 <= fuel)%nat ->
  planPositions 2000 768 100 fuel = Some [0; 668; 1232].
Proof.
  intros Hfuel.
  apply (planPositions_mono 2000 768 100 2 fuel); [exact Hfuel |].
  vm_compute. reflexivity.
Qed.

Lemma plan_768_100_2000_witness :
  planPositions 2000 768 100 7 = Some [0; 668; 1232].
Proof.
  apply (plan_768_100_2000 7). lia.
Defined.

(** C4 fails as stated: the plan for (768, 100, 2000) is not
    [0; 668; 1336]; 1336 is never appended and 1232 is. *)
Lemma expected_offset_1336_is_never_appended :
  planPositions 2000 768 100 (enoughFuel 2000 768) = Some [0; 668; 1232] /\
  planPositions 2000 768 100 (enoughFuel 2000 768) <> Some [0; 668; 1336].
Proof.
  split; [vm_compute; reflexivity | vm_compute; discriminate].
Qed.

(** ** Stitching *)

Section StitchFacts.
Import Sharp Stitch.

Lemma overlay_fold_width (ops : list CompositeOp) :
  forall c, cwidth (fold_left overlay ops c) = cwidth c.
Proof.
  induction ops as [| op ops IH]; intros c; [reflexivity |].
  simpl. rewrite IH. reflexivity.
Qed.

Lemma overlay_fold_height (ops : list CompositeOp) :
  forall c, cheight (fold_left overlay ops c) = cheight c.
Proof.
  induction ops as [| op ops IH]; intros c; [reflexivity |].
  simpl. rewrite IH. reflexivity.
Qed.

(** Overlays that do not cover a pixel leave it as it was. *)
Lemma overlay_fold_untouched (ops : list CompositeOp) (x y : Z) :
  forall c,
    (forall op, In op ops -> covers op x y = false) ->
    pixel (fold_left overlay ops c) x y = pixel c x y.
Proof.
  induction ops as [| op ops IH]; intros c Hnone; [reflexivity |].
  simpl. rewrite IH by (intros op' Hin; apply Hnone; right; exact Hin).
  simpl. rewrite (Hnone op) by (left; reflexivity). reflexivity.
Qed.

(** The last overlay that covers a pixel decides it. *)
Lemma overlay_fold_last (before after : list CompositeOp) (op : CompositeOp)
    (x y : Z) (c : Canvas) :
  covers op x y = true ->
  (forall op', In op' after -> covers op' x y = false) ->
  pixel (fold_left overlay (before ++ op :: after) c) x y =
  opaque (rgb (input op) (x - left op) (y - top op)).
Proof.
  intros Hcov Hnone.
  rewrite fold_left_app. simpl.
  rewrite overlay_fold_untouched by exact Hnone.
  simpl. rewrite Hcov. reflexivity.
Qed.

Lemma shots_fit (screenshots : list Shot) (c : Canvas) :
  Forall (fun shot => width (image shot) <= cwidth c /\
                      height (image shot) <= cheight c) screenshots ->
  forallb (fits c) (map compositeOperation screenshots) = true.
Proof.
  induction 1 as [| shot l [Hw Hh] _ IH]; [reflexivity |].
  simpl. rewrite IH. unfold fits. simpl.
  apply andb_true_iff. split; [| reflexivity].
  apply andb_true_iff. split; apply Z.leb_le; assumption.
Qed.

End StitchFacts.

Lemma shotCovers_onTile (shot : Stitch.Shot) (x y : Z) :
  Stitch.shotCovers shot x y = true <-> Describe.onTile shot x y.
Proof.
  unfold Stitch.shotCovers, Sharp.covers, Describe.onTile. simpl.
  rewrite !andb_true_iff, !Z.leb_le, !Z.ltb_lt. lia.
Qed.

Lemma shotCovers_off_tile (shot : Stitch.Shot) (x y : Z) :
  ~ Describe.onTile shot x y -> Stitch.shotCovers shot x y = false.
Proof.
  intros Hoff. destruct (Stitch.shotCovers shot x y) eqn:E; [| reflexivity].
  apply shotCovers_onTile in E. contradiction.
Qed.

(** C5 (as the code has it): for tiles none of which is wider than
    [viewportWidth] or taller than [totalHeight], both positive, whether or
    not their offsets cover the page, [stitchScreenshots] yields a canvas of
    width [viewportWidth] and height [totalHeight]; a pixel that lies on no
    tile is opaque white; a pixel that lies on a tile (in one of its
    columns counted from 0 and one of its rows counted from its offset)
    holds the pixel of the last tile of the list it lies on, taken at
    column [x] and row [y - offset] of that tile: where two tiles overlap,
    that of the later one, whatever the earlier one held. *)
Theorem stitch_canvas_size_and_later_tile_wins
    (screenshots : list Stitch.Shot)
    (totalHeight viewportWidth viewportHeight : Z) :
  0 < viewportWidth ->
  0 < totalHeight ->
  Forall (fun shot => Sharp.width (Stitch.image shot) <= viewportWidth /\
                      Sharp.height (Stitch.image shot) <= totalHeight)
         screenshots ->
  exists canvas,
    Stitch.stitchScreenshots screenshots totalHeight viewportWidth viewportHeight
      = Sharp.Done canvas /\
    Sharp.cwidth canvas = viewportWidth /\
    Sharp.cheight canvas = totalHeight /\
    (forall x y,
        (forall shot, In shot screenshots -> ~ Describe.onTile shot x y) ->
        Sharp.pixel canvas x y
        = {| Sharp.r := 255; Sharp.g := 255; Sharp.b := 255; Sharp.alpha := 1 |}) /\
    (forall before later after x y,
        screenshots = before ++ later :: after ->
        Describe.onTile later x y ->
        (forall shot, In shot after -> ~ Describe.onTile shot x y) ->
        Sharp.pixel canvas x y
        = Sharp.opaque
            (Sharp.rgb (Stitch.image later) x (y - Stitch.position later))) /\
    (forall first earlier between later after x y,
        screenshots = first ++ earlier :: between ++ later :: after ->
        Describe.onTile earlier x y ->
        Describe.onTile later x y ->
        (forall shot, In shot after -> ~ Describe.onTile shot x y) ->
        Sharp.pixel canvas x y
        = Sharp.opaque
            (Sharp.rgb (Stitch.image later) x (y - Stitch.position later))).
Proof.
  intros Hw Hh Hfit.
  unfold Stitch.stitchScreenshots, Sharp.create. simpl.
  assert (Hpos : (0 <? viewportWidth) && (0 <? totalHeight) = true)
    by (apply andb_true_iff; split; apply Z.ltb_lt; assumption).
  rewrite Hpos. unfold Sharp.composite.
  rewrite shots_fit by exact Hfit.
  eexists. split; [reflexivity |].
  assert (Hlast : forall before later after x y,
             screenshots = before ++ later :: after ->
             Describe.onTile later x y ->
             (forall shot, In shot after -> ~ Describe.onTile shot x y) ->
             Sharp.pixel
               (fold_left Sharp.overlay
                  (map Stitch.compositeOperation screenshots)
                  {| Sharp.cwidth := viewportWidth;
                     Sharp.cheight := totalHeight;
                     Sharp.pixel := fun _ _ =>
                       {| Sharp.r := 255; Sharp.g := 255; Sharp.b := 255;
                          Sharp.alpha := 1 |} |}) x y
             = Sharp.opaque
                 (Sharp.rgb (Stitch.image later) x (y - Stitch.position later))).
  { intros before later after x y -> Hon Hnone.
    rewrite map_app. simpl map.
    rewrite overlay_fold_last.
    - simpl. rewrite Z.sub_0_r. reflexivity.
    - apply shotCovers_onTile, Hon.
    - intros op' Hin. apply in_map_iff in Hin as (shot & <- & Hin).
      apply shotCovers_off_tile, Hnone, Hin. }
  repeat split.
  - rewrite overlay_fold_width. reflexivity.
  - rewrite overlay_fold_height. reflexivity.
  - intros x y Hnone. rewrite overlay_fold_untouched; [reflexivity |].
    intros op Hin. apply in_map_iff in Hin as (shot & <- & Hin).
    apply shotCovers_off_tile, Hnone, Hin.
  - exact Hlast.
  - intros first earlier between later after x y Heq _ Hon Hnone.
    apply (Hlast (first ++ earlier :: between) later after x y);
      [| exact Hon | exact Hnone].
    rewrite Heq, <- app_assoc. reflexivity.
Qed.

Lemma stitch_canvas_size_and_later_tile_wins_witness :
  exists canvas,
    Stitch.stitchScreenshots [Samples.upperShot; Samples.lowerShot] 1000 800 600
      = Sharp.Done canvas /\
    Sharp.cwidth canvas = 800 /\
    Sharp.cheight canvas = 1000 /\
    (forall x y,
        (forall shot, In shot [Samples.upperShot; Samples.lowerShot] ->
                      ~ Describe.onTile shot x y) ->
        Sharp.pixel canvas x y
        = {| Sharp.r := 255; Sharp.g := 255; Sharp.b := 255; Sharp.alpha := 1 |}) /\
    (forall before later after x y,
        [Samples.upperShot; Samples.lowerShot] = before ++ later :: after ->
        Describe.onTile later x y ->
        (forall shot, In shot after -> ~ Describe.onTile shot x y) ->
        Sharp.pixel canvas x y
        = Sharp.opaque
            (Sharp.rgb (Stitch.image later) x (y - Stitch.position later))) /\
    (forall first earlier between later after x y,
        [Samples.upperShot; Samples.lowerShot]
          = first ++ earlier :: between ++ later :: after ->
        Describe.onTile earlier x y ->
        Describe.onTile later x y ->
        (forall shot, In shot after -> ~ Describe.onTile shot x y) ->
        Sharp.pixel canvas x y
        = Sharp.opaque
            (Sharp.rgb (Stitch.image later) x (y - Stitch.position later))).
Proof.
  apply (stitch_canvas_size_and_later_tile_wins
           [Samples.upperShot; Samples.lowerShot] 1000 800 600).
  - lia.
  - lia.
  - repeat constructor; simpl; lia.
Defined.

(** C5 fails as stated: one tile of 768 rows taken at offset 0 covers the
    rows of a page of 600 pixels, and [stitchScreenshots] produces no canvas
    for it: [sharp] refuses an overlay taller than the canvas. *)
Lemma covering_tile_taller_than_page_is_refused :
  Describe.rowsCovered [MoreSamples.tallShot] 600 /\
  Stitch.stitchScreenshots [MoreSamples.tallShot] 600 1366 768
  = Sharp.Failed "Image to composite must have same dimensions or smaller".
Proof.
  split.
  - intros y Hy. exists MoreSamples.tallShot.
    split; [left; reflexivity | simpl; lia].
  - vm_compute. reflexivity.
Qed.

(** The two sample tiles stitched: a row of the band they share is blue, as
    the lower tile, taken later; a row above it is red; the rows below both
    keep the white background. *)
Example stitch_sample_pixels :
  match Stitch.stitchScreenshots [Samples.upperShot; Samples.lowerShot]
          1000 800 600 with
  | Sharp.Done canvas =>
      Sharp.pixel canvas 10 450 = Sharp.opaque Samples.blue_ /\
      Sharp.pixel canvas 10 399 = Sharp.opaque Samples.red_ /\
      Sharp.pixel canvas 10 1000 = Stitch.white
  | Sharp.Failed _ => False
  end.
Proof. vm_compute. repeat split. Qed.

(** ** The normalizer *)

Section NormalizerFacts.
Import DOM.

(** Induction on an element with the property of all its children. *)
Lemma Element_tree_ind (P : Element -> Prop) :
  (forall id sheet style children,
      Forall P children -> P (Node id sheet style children)) ->
  forall e, P e.
Proof.
  intros Hnode.
  fix IH 1. intros [id sheet style children].
  apply Hnode.
  induction children as [| c children IHc]; constructor.
  - apply IH.
  - exact IHc.
Qed.

Variable cascade : Position -> option Position -> Position.

(** An element whose inline position is ["absolute"] has the computed
    position ["absolute"]. *)
Hypothesis cascade_absolute :
  forall sheet, cascade sheet (Some Absolute) = Absolute.

Lemma convertToAbsolute_not_fixed (w : Window) (e : Element) :
  computedPosition cascade (convertToAbsolute cascade w e) <> Fixed.
Proof.
  destruct e as [id sheet style children]. simpl.
  destruct (Position_eqb (cascade sheet (position style)) Fixed) eqn:E.
  - simpl. rewrite cascade_absolute. discriminate.
  - intros Hfixed. rewrite Hfixed in E. discriminate.
Qed.


End NormalizerFacts.




(** The banner of the sample page, converted before any scrolling, is
    absolute with [top = 0px]; a second run after scrolling by 500 pixels
    leaves [top] at [0px]. *)
Example banner_converted_once :
  map DOM.styleOf
    (DOM.childrenOf
       (DOM.convertToAbsolute DOM.inlineWins (Samples.windowAt 500)
          (DOM.convertToAbsolute DOM.inlineWins (Samples.windowAt 0)
             Samples.bannerPage)))
  = [ {| DOM.position := Some DOM.Absolute;
         DOM.top := Some (DOM.Px 0); DOM.left := Some (DOM.Px 0);
         DOM.bottom := Some DOM.Auto; DOM.right := Some DOM.Auto |};
      Samples.unset ].
Proof. reflexivity. Qed.

(** ** The capture session *)

Section SessionFacts.
Import Session Traces.

Lemma calls_app (op : Op) (tr1 tr2 : list Event) :
  calls op (tr1 ++ tr2) = (calls op tr1 + calls op tr2)%nat.
Proof. unfold calls. rewrite filter_app, length_app. reflexivity. Qed.

Lemma calls_silent (op : Op) (Q : Event -> Prop) (tr : list Event) :
  (forall ev, Q ev -> isOp op ev = false) -> Forall Q tr -> calls op tr = 0%nat.
Proof.
  intros HQ Hall. induction Hall as [| ev tr Hev _ IH]; [reflexivity |].
  unfold calls in *. simpl. rewrite (HQ ev Hev). exact IH.
Qed.

Lemma appends_ret {A} Q (a : A) : appends Q (ret a).
Proof. intros st. exists []. simpl. rewrite app_nil_r. split; constructor. Qed.

Lemma appends_throw {A} Q e : appends Q (@throw A e).
Proof. intros st. exists []. simpl. rewrite app_nil_r. split; constructor. Qed.

Lemma appends_bind {A B} Q (m : M A) (k : A -> M B) :
  appends Q m -> (forall a, appends Q (k a)) -> appends Q (bind m k).
Proof.
  intros Hm Hk st. unfold bind.
  destruct (Hm st) as (tr1 & E1 & F1).
  destruct (m st) as [[a | e |] st1]; simpl in E1.
  - destruct (Hk a st1) as (tr2 & E2 & F2).
    exists (tr1 ++ tr2). rewrite E2, E1, app_assoc.
    split; [reflexivity | apply Forall_app; split; assumption].
  - exists tr1. split; assumption.
  - exists tr1. split; assumption.
Qed.


Lemma appends_perform env Q op ev : Q ev -> appends Q (perform env op ev).
Proof.
  intros Hev st. exists [ev]. unfold perform.
  destruct (fault env op (calls op (trace st))); simpl;
    (split; [reflexivity | repeat constructor; exact Hev]).
Qed.



Lemma appends_captureEach env positions :
  forall counter screenshots,
    appends pageEvent (captureEach env positions counter screenshots).
Proof.
  induction positions as [| p rest IH]; intros counter screenshots; simpl.
  - apply appends_ret.
  - apply appends_bind; [apply appends_perform; exact I | intros _].
    apply appends_bind.
    { destruct (counter =? 0); apply appends_perform; exact I. }
    intros _. apply appends_bind; [| intros shot; apply IH].
    intros st. unfold screenshot.
    apply (appends_bind pageEvent (perform env Screenshot EvScreenshot));
      [apply appends_perform; exact I | intros _; apply appends_ret].
Qed.

Lemma appends_processPage env fuel options :
  appends pageEvent (processPage env fuel options).
Proof.
  unfold processPage.
  apply appends_bind; [apply appends_perform; exact I | intros _].
  apply appends_bind.
  - unfold takeScreenshotsOfPage.
    apply appends_bind; [apply appends_perform; exact I | intros _].
    apply appends_bind.
    { intros st. unfold evaluateFullHeight.
      apply (appends_bind pageEvent (evaluate env MeasureFullHeight));
        [apply appends_perform; exact I | intros _; apply appends_ret]. }
    intros fullHeight. apply appends_bind.
    { destruct (Planner.planPositions _ _ _ _);
        [apply appends_ret | apply appends_throw]. }
    intros positions. apply appends_bind; [apply appends_captureEach |].
    intros screenshots. apply appends_ret.
  - intros [screenshots fullHeight].
    unfold settle. destruct (Stitch.stitchScreenshots _ _ _ _);
      [apply appends_ret | apply appends_throw].
Qed.

(** The [finally] block never throws: a failure of [close] is caught. *)
Lemma cleanup_returns env st :
  exists tr,
    cleanup env st = (Returns tt, {| browser := browser st; trace := trace st ++ tr |})
    /\ Forall closeEvent tr.
Proof.
  unfold cleanup. destruct st as [b tr0]. simpl. destruct b.
  - unfold try_catch, perform. simpl.
    destruct (fault env Close (calls Close tr0)).
    + exists [EvClose; EvConsoleError None (Rejected Close s)].
      unfold console_error, log, record. simpl. rewrite <- app_assoc.
      split; [reflexivity | repeat constructor].
    + exists [EvClose]. split; [reflexivity | repeat constructor].
  - exists []. unfold ret. rewrite app_nil_r. split; [reflexivity | constructor].
Qed.


Lemma bind_ret_r {A} (m : M A) st : bind m ret st = m st.
Proof. unfold bind, ret. destruct (m st) as [[a | e |] st']; reflexivity. Qed.

Lemma bind_returns {A B} (m : M A) (k : A -> M B) st a st' :
  m st = (Returns a, st') -> bind m k st = k a st'.
Proof. intros E. unfold bind. rewrite E. reflexivity. Qed.

Lemma bind_throws {A B} (m : M A) (k : A -> M B) st e st' :
  m st = (Throws e, st') -> bind m k st = (Throws e, st').
Proof. intros E. unfold bind. rewrite E. reflexivity. Qed.

Lemma perform_resolves env op ev st :
  fault env op (calls op (trace st)) = None ->
  perform env op ev st = (Returns tt, record ev st).
Proof. intros E. unfold perform. rewrite E. reflexivity. Qed.

Lemma perform_rejects env op ev st msg :
  fault env op (calls op (trace st)) = Some msg ->
  perform env op ev st = (Throws (Rejected op msg), record ev st).
Proof. intros E. unfold perform. rewrite E. reflexivity. Qed.



Lemma trace_record ev st : trace (record ev st) = trace st ++ [ev].
Proof. reflexivity. Qed.


End SessionFacts.

Section SessionRuns.
Import Session Traces.




End SessionRuns.

(** C10: whether [browser.close()] resolves or is rejected, a run of
    [captureFullPageScreenshot] completes as the block of its [try] does:
    with the same buffer, the same error, or not at all.  The rejection of
    [close] is caught and logged. *)
Theorem close_failure_never_changes_outcome
    (env : Session.Env) (closeFault : nat -> option string)
    (fuel : nat) (url : string) (options : Session.Options)
    (st : Session.State) :
  fst (Session.captureFullPageScreenshot (Session.withClose env closeFault)
         fuel url options st)
  = fst (Session.pipeline env fuel url options st).
Proof.
  unfold Session.captureFullPageScreenshot, Session.try_finally.
  change (Session.pipeline (Session.withClose env closeFault) fuel url options st)
    with (Session.pipeline env fuel url options st).
  destruct (Session.pipeline env fuel url options st) as [[a | e |] st'];
    try reflexivity;
    destruct (cleanup_returns (Session.withClose env closeFault) st')
      as (tr & -> & _); reflexivity.
Qed.

(** Without the [.catch], a [finally] block that throws does replace the
    completion of the [try] block: the model lets a failing [close] matter. *)
Example uncaught_close_would_replace_the_result :
  fst (Session.try_finally
         (Session.pipeline Samples.closeFails 5 Samples.exampleURL
            Session.noOptions)
         (Session.perform Samples.closeFails Session.Close Session.EvClose)
         Session.initial)
  = Session.Throws (Session.Rejected Session.Close "Target closed").
Proof. vm_compute. reflexivity. Qed.

Section Credentials.
Import Session Traces Describe.






End Credentials.



(** An unreachable page with the proxy configured, event by event: one
    authentication, two navigations, the browser closed once. *)
Example unreachable_page_with_proxy :
  Session.captureFullPageScreenshot Samples.unreachable 5
    Samples.exampleURL Samples.proxyOptions Session.initial
  = (Session.Throws (Session.Rejected Session.Goto "net::ERR_TIMED_OUT"),
     {| Session.browser := true;
        Session.trace :=
          [ Session.EvLaunch 1366 768 None;
            Session.EvNewPage;
            Session.EvSetDefaultNavigationTimeout 120000;
            Session.EvGoto Samples.exampleURL 120000;
            Session.EvConsoleError
              (Some "Navigation error on first attempt:"%string)
              (Session.Rejected Session.Goto "net::ERR_TIMED_OUT");
            Session.EvAuthenticate "user" "key";
            Session.EvGoto Samples.exampleURL 120000;
            Session.EvClose ] |}).
Proof. vm_compute. reflexivity. Qed.

Example unreachable_page_without_proxy :
  Session.captureFullPageScreenshot Samples.unreachable 5
    Samples.exampleURL Session.noOptions Session.initial
  = (Session.Throws (Session.Rejected Session.Goto "net::ERR_TIMED_OUT"),
     {| Session.browser := true;
        Session.trace :=
          [ Session.EvLaunch 1366 768 None;
            Session.EvNewPage;
            Session.EvSetDefaultNavigationTimeout 120000;
            Session.EvGoto Samples.exampleURL 120000;
            Session.EvConsoleError
              (Some "Navigation error on first attempt:"%string)
              (Session.Rejected Session.Goto "net::ERR_TIMED_OUT");
            Session.EvClose ] |}).
Proof. vm_compute. reflexivity. Qed.

(** C3 (the code departs from it): with the proxy configured, the first
    navigation succeeds and the first screenshot is rejected.  The error is
    caught by the handler written for navigation errors and logged; the run
    then authenticates, navigates a second time and captures the page
    again. *)
Theorem capture_error_triggers_proxy_retry :
  Session.trace
    (snd (Session.captureFullPageScreenshot Samples.firstScreenshotFails 5
            Samples.exampleURL Samples.proxyOptions Session.initial))
  = [ Session.EvLaunch 1366 768 None;
      Session.EvNewPage;
      Session.EvSetDefaultNavigationTimeout 120000;
      Session.EvGoto Samples.exampleURL 120000;
      Session.EvWaitForTimeout 4000;
      Session.EvEvaluate Session.ConvertFixedElements;
      Session.EvEvaluate Session.MeasureFullHeight;
      Session.EvEvaluate (Session.ScrollTo 0);
      Session.EvWaitForTimeout 2000;
      Session.EvScreenshot;
      Session.EvConsoleError
        (Some "Navigation error on first attempt:"%string)
        (Session.Rejected Session.Screenshot "Protocol error");
      Session.EvAuthenticate "user" "key";
      Session.EvGoto Samples.exampleURL 120000;
      Session.EvWaitForTimeout 4000;
      Session.EvEvaluate Session.ConvertFixedElements;
      Session.EvEvaluate Session.MeasureFullHeight;
      Session.EvEvaluate (Session.ScrollTo 0);
      Session.EvWaitForTimeout 2000;
      Session.EvScreenshot;
      Session.EvEvaluate (Session.ScrollTo 668);
      Session.EvWaitForTimeout 500;
      Session.EvScreenshot;
      Session.EvEvaluate (Session.ScrollTo 1232);
      Session.EvWaitForTimeout 500;
      Session.EvScreenshot;
      Session.EvClose ] /\
  (forall e,
      fst (Session.captureFullPageScreenshot Samples.firstScreenshotFails 5
             Samples.exampleURL Samples.proxyOptions Session.initial)
      <> Session.Throws e).
Proof.
  split; [vm_compute; reflexivity |].
  intros e. vm_compute. discriminate.
Qed.




(** * Further properties *)

(** ** The scroll planner: stride and number of tiles *)

Section PlanShape.
Import Describe.

Variables (fullHeight viewportHeight overlap : Z).

Local Abbreviation chain := (chain fullHeight viewportHeight overlap).

Lemma chain_steps (tl : list Z) :
  forall cur, chain cur tl -> steps_at_most (viewportHeight - overlap) (cur :: tl).
Proof.
  induction tl as [| p tl IH]; intros cur Hch; [exact I |].
  destruct Hch as (-> & _ & Hch). split; [lia | apply IH, Hch].
Qed.

Lemma chain_last_next (tl : list Z) :
  forall cur,
    chain cur tl ->
    last (cur :: tl) 0 + (viewportHeight - overlap) + viewportHeight > fullHeight.
Proof.
  induction tl as [| p tl IH]; intros cur Hch; [exact Hch |].
  destruct Hch as (_ & _ & Hch).
  change (last (cur :: p :: tl) 0) with (last (p :: tl) 0). apply IH, Hch.
Qed.

(** The offsets of the loop are the multiples of the stride. *)
Lemma chain_length (tl : list Z) :
  forall cur,
    chain cur tl ->
    last (cur :: tl) 0
    = cur + Z.of_nat (List.length tl) * (viewportHeight - overlap).
Proof.
  induction tl as [| p tl IH]; intros cur Hch; [simpl; lia |].
  destruct Hch as (-> & _ & Hch).
  change (last (cur :: (cur + (viewportHeight - overlap)) :: tl) 0)
    with (last ((cur + (viewportHeight - overlap)) :: tl) 0).
  rewrite (IH _ Hch). simpl List.length. lia.
Qed.

Lemma chain_last_within (tl : list Z) :
  forall cur,
    cur + viewportHeight <= fullHeight ->
    chain cur tl -> last (cur :: tl) 0 + viewportHeight <= fullHeight.
Proof.
  induction tl as [| p tl IH]; intros cur Hcur Hch; [exact Hcur |].
  destruct Hch as (_ & Hp & Hch).
  change (last (cur :: p :: tl) 0) with (last (p :: tl) 0).
  apply IH; assumption.
Qed.

Lemma steps_at_most_snoc (d : Z) (l : list Z) (x : Z) :
  l <> [] -> steps_at_most d l -> x - last l 0 <= d ->
  steps_at_most d (l ++ [x]).
Proof.
  induction l as [| a l IH]; intros Hne Hst Hx; [congruence |].
  destruct l as [| b l].
  - simpl in *. split; [exact Hx | exact I].
  - destruct Hst as (Hab & Hst).
    change ((a :: b :: l) ++ [x]) with (a :: b :: (l ++ [x])).
    split; [exact Hab |]. apply IH; [discriminate | exact Hst | exact Hx].
Qed.

End PlanShape.

(** A plan computed with [0 <= overlap < viewportHeight]: it starts at 0,
    grows, and never by more than the stride. *)
Lemma plan_facts (totalHeight viewportHeight overlap : Z) (fuel : nat)
    (plan : list Z) :
  0 <= overlap < viewportHeight ->
  planPositions totalHeight viewportHeight overlap fuel = Some plan ->
  (exists rest, plan = 0 :: rest) /\
  strictly_increasing plan /\
  Describe.steps_at_most (viewportHeight - overlap) plan.
Proof.
  intros Hov Hp.
  apply planPositions_shape in Hp as (tl & Hch & ->).
  pose proof (chain_steps _ _ _ tl 0 Hch) as Hst.
  pose proof (chain_last_next _ _ _ tl 0 Hch) as Hnext.
  assert (Hinc : strictly_increasing (0 :: tl))
    by (apply (chain_increasing totalHeight viewportHeight overlap);
        [lia | exact Hch]).
  pose proof (last_cons_ge tl 0 Hinc) as Hge.
  unfold snap. rewrite snapNeeded_spec. unfold lastPos, finalPos.
  destruct (Z.ltb_spec (2 * last (0 :: tl) 0 + overlap)
              (2 * Z.max 0 (totalHeight - viewportHeight))) as [Hlt | Hnot].
  - split; [eexists; reflexivity |]. split.
    + apply strictly_increasing_snoc; [discriminate | exact Hinc | lia].
    + apply steps_at_most_snoc; [discriminate | exact Hst | lia].
  - split; [eexists; reflexivity |]. split; assumption.
Qed.

(** X1: for [0 <= overlap < viewportHeight] the loop terminates and two
    adjacent offsets of the plan are never more than
    [viewportHeight - overlap] apart, the snap offset included: two
    consecutive tiles share at least [overlap] rows. *)
Theorem plan_adjacent_tiles_overlap
    (totalHeight viewportHeight overlap : Z) (fuel : nat) :
  0 <= overlap < viewportHeight ->
  (Z.to_nat (totalHeight - viewportHeight) < fuel)%nat ->
  exists plan,
    planPositions totalHeight viewportHeight overlap fuel = Some plan /\
    Describe.steps_at_most (viewportHeight - overlap) plan.
Proof.
  intros Hov Hfuel.
  destruct (planPositions_terminates totalHeight viewportHeight overlap fuel)
    as (plan & Hp); [lia | exact Hfuel |].
  exists plan. split; [exact Hp |].
  apply (plan_facts totalHeight viewportHeight overlap fuel plan Hov Hp).
Qed.

Lemma plan_adjacent_tiles_overlap_witness :
  exists plan,
    planPositions 2000 1000 100 1001 = Some plan /\
    Describe.steps_at_most (1000 - 100) plan.
Proof.
  apply (plan_adjacent_tiles_overlap 2000 1000 100 1001).
  - lia.
  - vm_compute. lia.
Defined.

(** X2: on a page at least as tall as the viewport, with
    [0 <= overlap < viewportHeight], the number of tiles of the plan is
    [(totalHeight - viewportHeight) / (viewportHeight - overlap) + 1], or one
    more when the snap offset is appended. *)
Theorem plan_number_of_tiles
    (totalHeight viewportHeight overlap : Z) (fuel : nat) :
  0 <= overlap < viewportHeight ->
  viewportHeight <= totalHeight ->
  (Z.to_nat (totalHeight - viewportHeight) < fuel)%nat ->
  exists plan,
    planPositions totalHeight viewportHeight overlap fuel = Some plan /\
    (totalHeight - viewportHeight) / (viewportHeight - overlap) + 1
      <= Z.of_nat (List.length plan)
      <= (totalHeight - viewportHeight) / (viewportHeight - overlap) + 2.
Proof.
  intros Hov Htall Hfuel.
  destruct (planPositions_terminates totalHeight viewportHeight overlap fuel)
    as (plan & Hp); [lia | exact Hfuel |].
  exists plan. split; [exact Hp |].
  apply planPositions_shape in Hp as (tl & Hch & ->).
  pose proof (chain_last_next _ _ _ tl 0 Hch) as Hnext.
  assert (Hin : last (0 :: tl) 0 + viewportHeight <= totalHeight)
    by (apply (chain_last_within totalHeight viewportHeight overlap tl 0);
        [lia | exact Hch]).
  rewrite (chain_length _ _ _ tl 0 Hch) in Hnext, Hin.
  set (s := viewportHeight - overlap) in *.
  set (n := Z.of_nat (List.length tl)) in *.
  assert (Hs : 0 < s) by (subst s; lia).
  assert (Hq : (totalHeight - viewportHeight) / s = n).
  { symmetry. apply (Z.div_unique _ _ _ (totalHeight - viewportHeight - n * s)); lia. }
  rewrite Hq.
  unfold snap.
  destruct (snapNeeded totalHeight viewportHeight overlap (0 :: tl)).
  - rewrite length_app. simpl List.length. fold n. lia.
  - simpl List.length. fold n. lia.
Qed.

Lemma plan_number_of_tiles_witness :
  exists plan,
    planPositions 2000 768 100 1233 = Some plan /\
    (2000 - 768) / (768 - 100) + 1
      <= Z.of_nat (List.length plan)
      <= (2000 - 768) / (768 - 100) + 2.
Proof.
  apply (plan_number_of_tiles 2000 768 100 1233).
  - lia.
  - lia.
  - vm_compute. lia.
Defined.

(** ** The normalizer on a whole tree *)

Section TreeFacts.
Import DOM Describe.

Variable cascade : Position -> option Position -> Position.

Lemma Position_eqb_eq (p q : Position) : Position_eqb p q = true <-> p = q.
Proof. destruct p, q; simpl; split; congruence. Qed.

(** The traversal reaches every element: the elements of the converted
    tree are the elements of the tree, each converted. *)
Lemma elements_convert (w : Window) (e : Element) :
  elements (convertToAbsolute cascade w e)
  = map (convertToAbsolute cascade w) (elements e).
Proof.
  induction e as [id sheet style children IH] using Element_tree_ind.
  cbn [convertToAbsolute elements map]. f_equal.
  induction IH as [| c children Hc _ IHc]; [reflexivity |].
  cbn [map flat_map]. rewrite map_app, Hc, IHc. reflexivity.
Qed.

Lemma convert_without_fixed (w : Window) (e : Element) :
  (forall e', In e' (elements e) -> computedPosition cascade e' <> Fixed) ->
  convertToAbsolute cascade w e = e.
Proof.
  induction e as [id sheet style children IH] using Element_tree_ind.
  intros Hnone. cbn [convertToAbsolute]. f_equal.
  - destruct (Position_eqb (cascade sheet (position style)) Fixed) eqn:E;
      [| reflexivity].
    apply Position_eqb_eq in E. exfalso.
    apply (Hnone (Node id sheet style children)); [left; reflexivity | exact E].
  - rewrite <- (map_id children) at 2. apply map_ext_in.
    intros c Hin. rewrite Forall_forall in IH. apply IH; [exact Hin |].
    intros e' He'. apply Hnone. right. cbn [elements].
    apply in_flat_map. exists c. split; assumption.
Qed.

End TreeFacts.

(** X3: after the normalizer has run, no element of the tree, at any depth
    and whether or not an ancestor was converted, has the computed position
    ["fixed"] (for a browser that computes ["absolute"] for an element whose
    inline position is ["absolute"]). *)
Theorem normalizer_leaves_no_fixed_element
    (cascade : DOM.Position -> option DOM.Position -> DOM.Position)
    (w : DOM.Window) (e e' : DOM.Element) :
  (forall sheet, cascade sheet (Some DOM.Absolute) = DOM.Absolute) ->
  In e' (Describe.elements (DOM.convertToAbsolute cascade w e)) ->
  DOM.computedPosition cascade e' <> DOM.Fixed.
Proof.
  intros Hcascade Hin. rewrite elements_convert in Hin.
  apply in_map_iff in Hin as (e0 & <- & _).
  apply convertToAbsolute_not_fixed, Hcascade.
Qed.

Lemma normalizer_leaves_no_fixed_element_witness :
  DOM.computedPosition DOM.inlineWins
    (DOM.Node 2 DOM.Fixed
       (Describe.pinned (Samples.windowAt 0) 2) [])
  <> DOM.Fixed.
Proof.
  apply (normalizer_leaves_no_fixed_element DOM.inlineWins
           (Samples.windowAt 0) MoreSamples.nestedFixedPage).
  - intros sheet. reflexivity.
  - simpl. right. right. left. reflexivity.
Defined.

(** X4: on a tree in which no element has the computed position ["fixed"]
    the normalizer changes nothing. *)
Theorem normalizer_identity_without_fixed
    (cascade : DOM.Position -> option DOM.Position -> DOM.Position)
    (w : DOM.Window) (e : DOM.Element) :
  (forall e', In e' (Describe.elements e) ->
              DOM.computedPosition cascade e' <> DOM.Fixed) ->
  DOM.convertToAbsolute cascade w e = e.
Proof. apply convert_without_fixed. Qed.

Lemma normalizer_identity_without_fixed_witness :
  DOM.convertToAbsolute DOM.inlineWins (Samples.windowAt 500)
    MoreSamples.plainPage
  = MoreSamples.plainPage.
Proof.
  apply (normalizer_identity_without_fixed DOM.inlineWins
           (Samples.windowAt 500) MoreSamples.plainPage).
  simpl. intros e' [<- | [<- | [<- | []]]]; simpl; discriminate.
Defined.

(** ** A plan, captured and stitched *)

Section GapFacts.
Import Sharp Stitch Describe.

Lemma steps_cover (d viewportHeight : Z) (l : list Z) (y : Z) :
  l <> [] -> steps_at_most d l -> d <= viewportHeight ->
  hd 0 l <= y < last l 0 + viewportHeight ->
  exists p, In p l /\ p <= y < p + viewportHeight.
Proof.
  intros Hne Hst Hd. induction l as [| a l IH]; [congruence |].
  destruct l as [| b l]; intros Hy.
  - exists a. split; [left; reflexivity | simpl in Hy; lia].
  - destruct Hst as (Hab & Hst).
    change (last (a :: b :: l) 0) with (last (b :: l) 0) in Hy.
    simpl hd in Hy.
    destruct (Z.lt_ge_cases y b) as [Hlt | Hge].
    + exists a. split; [left; reflexivity | lia].
    + destruct IH as (p & Hin & Hp); [discriminate | exact Hst | cbn [hd]; lia |].
      exists p. split; [right; exact Hin | exact Hp].
Qed.

Lemma increasing_le_last (l : list Z) :
  strictly_increasing l -> forall p, In p l -> p <= last l 0.
Proof.
  induction l as [| a l IH]; intros Hinc p Hin; [destruct Hin |].
  destruct l as [| b l].
  - destruct Hin as [<- | []]. simpl. lia.
  - destruct Hinc as (Hab & Hinc).
    change (last (a :: b :: l) 0) with (last (b :: l) 0).
    destruct Hin as [<- | Hin]; [| apply IH; assumption].
    specialize (IH Hinc b (or_introl eq_refl)). lia.
Qed.

(** Among the elements of a list that satisfy a test there is a last one. *)
Lemma last_satisfying {A} (P : A -> bool) (l : list A) :
  (exists a, In a l /\ P a = true) ->
  exists before later after,
    l = before ++ later :: after /\ P later = true /\
    forall a, In a after -> P a = false.
Proof.
  induction l as [| a l IH]; intros (a0 & Hin & Ha0); [destruct Hin |].
  destruct (existsb P l) eqn:E.
  - apply existsb_exists in E. destruct (IH E) as (bf & lt & af & -> & Hlt & Haf).
    exists (a :: bf), lt, af. split; [reflexivity | split; assumption].
  - assert (Hnone : forall a', In a' l -> P a' = false).
    { intros a' Ha'. destruct (P a') eqn:Ea'; [| reflexivity].
      rewrite <- E. symmetry. apply existsb_exists. exists a'. split; assumption. }
    destruct Hin as [<- | Hin]; [| rewrite (Hnone a0 Hin) in Ha0; discriminate].
    exists [], a, l. split; [reflexivity | split; assumption].
Qed.

Lemma shotCovers_iff (shot : Shot) (x y : Z) :
  shotCovers shot x y = true <->
  0 <= x < width (image shot) /\
  position shot <= y < position shot + height (image shot).
Proof.
  unfold shotCovers, covers. simpl.
  rewrite !andb_true_iff, !Z.leb_le, !Z.ltb_lt. lia.
Qed.

Lemma stitch_done (screenshots : list Shot)
    (fullHeight viewportWidth viewportHeight : Z) :
  0 < viewportWidth -> 0 < fullHeight ->
  Forall (fun shot => width (image shot) <= viewportWidth /\
                      height (image shot) <= fullHeight) screenshots ->
  stitchScreenshots screenshots fullHeight viewportWidth viewportHeight
  = Done (fold_left overlay (map compositeOperation screenshots)
            (blankCanvas viewportWidth fullHeight)).
Proof.
  intros Hw Hh Hfit. unfold stitchScreenshots, create. simpl.
  assert (Hpos : (0 <? viewportWidth) && (0 <? fullHeight) = true)
    by (apply andb_true_iff; split; apply Z.ltb_lt; assumption).
  rewrite Hpos. unfold composite.
  rewrite shots_fit by exact Hfit. reflexivity.
Qed.

End GapFacts.

(** X6: the tiles of a plan, stitched.  When the shots are taken at the
    offsets of the plan computed for the page ([0 <= overlap <
    viewportHeight <= totalHeight]) and each has the size of the viewport,
    stitching succeeds, every pixel of the canvas above the bottom of the
    last tile is a pixel of one of the tiles, so that no band of background
    shows between two tiles, and every row from the bottom of the last tile
    on keeps the white background. *)
Theorem stitched_plan_has_no_gap
    (screenshots : list Stitch.Shot) (plan : list Z)
    (totalHeight viewportWidth viewportHeight overlap : Z) (fuel : nat) :
  0 <= overlap < viewportHeight ->
  viewportHeight <= totalHeight ->
  0 < viewportWidth ->
  planPositions totalHeight viewportHeight overlap fuel = Some plan ->
  map Stitch.position screenshots = plan ->
  Forall (fun shot => Sharp.width (Stitch.image shot) = viewportWidth /\
                      Sharp.height (Stitch.image shot) = viewportHeight)
         screenshots ->
  exists canvas,
    Stitch.stitchScreenshots screenshots totalHeight viewportWidth viewportHeight
      = Sharp.Done canvas /\
    (forall x y,
        0 <= x < viewportWidth ->
        0 <= y < last plan 0 + viewportHeight ->
        exists shot,
          In shot screenshots /\ Stitch.shotCovers shot x y = true /\
          Sharp.pixel canvas x y = Stitch.shotPixel shot x y) /\
    (forall x y,
        last plan 0 + viewportHeight <= y ->
        Sharp.pixel canvas x y = Stitch.white).
Proof.
  intros Hov Htall Hw Hplan Hpos Hsize.
  destruct (plan_facts totalHeight viewportHeight overlap fuel plan Hov Hplan)
    as ((rest & Hhead) & Hinc & Hsteps).
  rewrite stitch_done;
    [| exact Hw | lia
     | eapply Forall_impl; [| exact Hsize]; intros shot [-> ->]; lia].
  eexists. split; [reflexivity |]. split.
  - intros x y Hx Hy.
    destruct (steps_cover (viewportHeight - overlap) viewportHeight plan y)
      as (p & Hin & Hp);
      [rewrite Hhead; discriminate | exact Hsteps | lia
       | rewrite Hhead at 1; simpl hd; lia |].
    rewrite <- Hpos in Hin. apply in_map_iff in Hin as (shot0 & Hp0 & Hin0).
    rewrite Forall_forall in Hsize.
    destruct (last_satisfying (fun shot => Stitch.shotCovers shot x y) screenshots)
      as (before & later & after & Heq & Hlater & Hafter).
    { exists shot0. split; [exact Hin0 |]. apply shotCovers_iff.
      destruct (Hsize shot0 Hin0) as [-> ->]. lia. }
    exists later. split; [rewrite Heq; apply in_elt |]. split; [exact Hlater |].
    rewrite Heq, map_app. simpl map.
    rewrite overlay_fold_last.
    + unfold Stitch.shotPixel. simpl. rewrite Z.sub_0_r. reflexivity.
    + exact Hlater.
    + intros op' Hop. apply in_map_iff in Hop as (shot & <- & Hshot).
      apply Hafter, Hshot.
  - intros x y Hy. rewrite overlay_fold_untouched; [reflexivity |].
    intros op Hop. apply in_map_iff in Hop as (shot & <- & Hshot).
    change (Stitch.shotCovers shot x y = false).
    destruct (Stitch.shotCovers shot x y) eqn:E; [| reflexivity].
    apply shotCovers_iff in E. rewrite Forall_forall in Hsize.
    destruct (Hsize shot Hshot) as [Hsw Hsh].
    assert (Hle : Stitch.position shot <= last plan 0).
    { apply increasing_le_last; [exact Hinc |].
      rewrite <- Hpos. apply in_map. exact Hshot. }
    lia.
Qed.

Lemma stitched_plan_has_no_gap_witness :
  exists canvas,
    Stitch.stitchScreenshots MoreSamples.threeShots 2000 800 1000
      = Sharp.Done canvas /\
    (forall x y,
        0 <= x < 800 ->
        0 <= y < last [0; 900; 1000] 0 + 1000 ->
        exists shot,
          In shot MoreSamples.threeShots /\ Stitch.shotCovers shot x y = true /\
          Sharp.pixel canvas x y = Stitch.shotPixel shot x y) /\
    (forall x y,
        last [0; 900; 1000] 0 + 1000 <= y ->
        Sharp.pixel canvas x y = Stitch.white).
Proof.
  apply (stitched_plan_has_no_gap MoreSamples.threeShots [0; 900; 1000]
           2000 800 1000 100 5).
  - lia.
  - lia.
  - lia.
  - reflexivity.
  - reflexivity.
  - repeat constructor.
Defined.

(** ** Runs of the capture session *)

Section RunFacts.
Import Session Traces Describe.

Lemma steady_ret {A} Q (a : A) : steady Q (ret a).
Proof.
  intros [b tr]. exists []. simpl. rewrite app_nil_r. split; constructor.
Qed.

Lemma steady_throw {A} Q e : steady Q (@throw A e).
Proof.
  intros [b tr]. exists []. simpl. rewrite app_nil_r. split; constructor.
Qed.

Lemma steady_bind {A B} Q (m : M A) (k : A -> M B) :
  steady Q m -> (forall a, steady Q (k a)) -> steady Q (bind m k).
Proof.
  intros Hm Hk st. unfold bind.
  destruct (Hm st) as (tr1 & E1 & F1).
  destruct (m st) as [[a | e |] st1]; simpl in E1; subst st1.
  - destruct (Hk a {| browser := browser st; trace := trace st ++ tr1 |})
      as (tr2 & E2 & F2).
    exists (tr1 ++ tr2). rewrite E2. simpl. rewrite app_assoc.
    split; [reflexivity | apply Forall_app; split; assumption].
  - exists tr1. split; [reflexivity | assumption].
  - exists tr1. split; [reflexivity | assumption].
Qed.

Lemma steady_try_catch {A} Q (m : M A) (h : Error -> M A) :
  steady Q m -> (forall e, steady Q (h e)) -> steady Q (try_catch m h).
Proof.
  intros Hm Hh st. unfold try_catch.
  destruct (Hm st) as (tr1 & E1 & F1).
  destruct (m st) as [[a | e |] st1]; simpl in E1; subst st1.
  - exists tr1. split; [reflexivity | assumption].
  - destruct (Hh e {| browser := browser st; trace := trace st ++ tr1 |})
      as (tr2 & E2 & F2).
    exists (tr1 ++ tr2). rewrite E2. simpl. rewrite app_assoc.
    split; [reflexivity | apply Forall_app; split; assumption].
  - exists tr1. split; [reflexivity | assumption].
Qed.

Lemma steady_perform env Q op ev : Q ev -> steady Q (perform env op ev).
Proof.
  intros Hev st. exists [ev]. unfold perform.
  destruct (fault env op (calls op (trace st))); simpl;
    (split; [reflexivity | repeat constructor; exact Hev]).
Qed.

Lemma steady_log Q ev : Q ev -> steady Q (log ev).
Proof.
  intros Hev st. exists [ev]. simpl.
  split; [reflexivity | repeat constructor; exact Hev].
Qed.

Lemma steady_weaken {A} (Q Q' : Event -> Prop) (m : M A) :
  (forall ev, Q ev -> Q' ev) -> steady Q m -> steady Q' m.
Proof.
  intros HQ Hm st. destruct (Hm st) as (tr & E & F).
  exists tr. split; [exact E | eapply Forall_impl; eassumption].
Qed.

Lemma steady_screenshot env : steady pageEvent (screenshot env).
Proof.
  intros st. unfold screenshot.
  apply (steady_bind pageEvent (perform env Screenshot EvScreenshot));
    [apply steady_perform; exact I | intros _; apply steady_ret].
Qed.

Lemma steady_captureEach env positions :
  forall counter screenshots,
    steady pageEvent (captureEach env positions counter screenshots).
Proof.
  induction positions as [| p rest IH]; intros counter screenshots; simpl.
  - apply steady_ret.
  - apply steady_bind; [apply steady_perform; exact I | intros _].
    apply steady_bind.
    { destruct (counter =? 0); apply steady_perform; exact I. }
    intros _. apply steady_bind; [apply steady_screenshot | intros shot; apply IH].
Qed.

Lemma steady_takeScreenshotsOfPage env fuel viewportHeight overlap :
  steady pageEvent (takeScreenshotsOfPage env fuel viewportHeight overlap).
Proof.
  unfold takeScreenshotsOfPage.
  apply steady_bind; [apply steady_perform; exact I | intros _].
  apply steady_bind.
  { intros st. unfold evaluateFullHeight.
    apply (steady_bind pageEvent (evaluate env MeasureFullHeight));
      [apply steady_perform; exact I | intros _; apply steady_ret]. }
  intros fullHeight. apply steady_bind.
  { destruct (Planner.planPositions _ _ _ _);
      [apply steady_ret | apply steady_throw]. }
  intros positions. apply steady_bind; [apply steady_captureEach |].
  intros screenshots. apply steady_ret.
Qed.

Lemma steady_processPage env fuel options :
  steady pageEvent (processPage env fuel options).
Proof.
  unfold processPage.
  apply steady_bind; [apply steady_perform; exact I | intros _].
  apply steady_bind; [apply steady_takeScreenshotsOfPage |].
  intros [screenshots fullHeight].
  unfold settle. destruct (Stitch.stitchScreenshots _ _ _ _);
    [apply steady_ret | apply steady_throw].
Qed.

Lemma pageEvent_notClose ev : pageEvent ev -> notClose ev.
Proof. destruct ev; intros H; try destruct H; reflexivity. Qed.

Lemma steady_firstAttemptOrRetry env fuel url options :
  steady notClose (firstAttemptOrRetry env fuel url options).
Proof.
  assert (Hpage : steady notClose (processPage env fuel options))
    by (apply (steady_weaken pageEvent); [apply pageEvent_notClose |];
        apply steady_processPage).
  unfold firstAttemptOrRetry. apply steady_try_catch.
  - apply steady_bind; [apply steady_perform; reflexivity | intros _; exact Hpage].
  - intros e. apply steady_bind; [apply steady_log; reflexivity | intros _].
    destruct (proxyConfigured options); [| apply steady_throw].
    apply steady_bind; [apply steady_perform; reflexivity | intros _].
    apply steady_bind; [apply steady_perform; reflexivity | intros _; exact Hpage].
Qed.

(** What follows the assignment to [browser] in the block of [try]. *)
Lemma steady_after_launch env fuel url options :
  steady notClose
    (bind (perform env NewPage EvNewPage)
       (fun _ => bind (log (EvSetDefaultNavigationTimeout 120000))
          (fun _ => bind (firstAttemptOrRetry env fuel url options)
             (fun finalBuffer => ret finalBuffer)))).
Proof.
  apply steady_bind; [apply steady_perform; reflexivity | intros _].
  apply steady_bind; [apply steady_log; reflexivity | intros _].
  apply steady_bind; [apply steady_firstAttemptOrRetry | intros b].
  apply steady_ret.
Qed.

Lemma calls_notClose (tr : list Event) :
  Forall notClose tr -> calls Close tr = 0%nat.
Proof.
  intros Hall. apply (calls_silent Close notClose); [| exact Hall].
  intros ev Hev. exact Hev.
Qed.

End RunFacts.

(** X7: a URL that [new URL] refuses ends the run at once: the error
    surfaces, the browser is not launched and nothing is closed. *)
Theorem invalid_url_rejected_before_browser
    (env : Session.Env) (fuel : nat) (url : string)
    (options : Session.Options) :
  Session.validURL env url = false ->
  Session.captureFullPageScreenshot env fuel url options Session.initial
  = (Session.Throws (Session.InvalidURL url), Session.initial).
Proof.
  intros Hurl.
  unfold Session.captureFullPageScreenshot, Session.try_finally,
    Session.pipeline.
  rewrite Hurl. reflexivity.
Qed.

Lemma invalid_url_rejected_before_browser_witness :
  Session.captureFullPageScreenshot MoreSamples.badURLEnv 5 "not a url"
    Session.noOptions Session.initial
  = (Session.Throws (Session.InvalidURL "not a url"), Session.initial).
Proof.
  apply (invalid_url_rejected_before_browser MoreSamples.badURLEnv 5
           "not a url" Session.noOptions).
  reflexivity.
Defined.

(** X8: when [puppeteer.launch] is rejected its error surfaces; [browser]
    is still undefined in the [finally] block, so no [close] is attempted,
    and no page is opened. *)
Theorem launch_failure_surfaces_without_close
    (env : Session.Env) (fuel : nat) (url : string)
    (options : Session.Options) (msg : string) :
  Session.validURL env url = true ->
  Session.fault env Session.Launch 0 = Some msg ->
  Session.captureFullPageScreenshot env fuel url options Session.initial
  = (Session.Throws (Session.Rejected Session.Launch msg),
     {| Session.browser := false;
        Session.trace :=
          [Session.EvLaunch
             (Session.orDefault 1366 (Session.opt_viewportWidth options))
             (Session.orDefault 768 (Session.opt_viewportHeight options))
             (if Session.truthy (Session.opt_executablePathOverride options)
              then Session.opt_executablePathOverride options
              else Session.chromium_executablePath env)] |}).
Proof.
  intros Hurl Hlaunch.
  unfold Session.captureFullPageScreenshot, Session.try_finally,
    Session.pipeline.
  rewrite Hurl.
  erewrite bind_returns by reflexivity.
  erewrite bind_throws by (apply perform_rejects; exact Hlaunch).
  reflexivity.
Qed.

Lemma launch_failure_surfaces_without_close_witness :
  Session.captureFullPageScreenshot MoreSamples.noBrowserEnv 5
    Samples.exampleURL Session.noOptions Session.initial
  = (Session.Throws
       (Session.Rejected Session.Launch "Failed to launch the browser process"),
     {| Session.browser := false;
        Session.trace := [Session.EvLaunch 1366 768 None] |}).
Proof.
  apply (launch_failure_surfaces_without_close MoreSamples.noBrowserEnv 5
           Samples.exampleURL Session.noOptions
           "Failed to launch the browser process");
    reflexivity.
Defined.

Section CountFacts.
Import Session Traces Describe.

Lemma bounded_weaken {A} op (n n' : nat) (m : M A) :
  (n <= n')%nat -> bounded op n m -> bounded op n' m.
Proof.
  intros Hle Hm st. destruct (Hm st) as (tr & E & Hc).
  exists tr. split; [exact E | lia].
Qed.

Lemma bounded_silent {A} op Q (m : M A) :
  (forall ev, Q ev -> isOp op ev = false) -> appends Q m -> bounded op 0 m.
Proof.
  intros HQ Hm st. destruct (Hm st) as (tr & E & Hall).
  exists tr. split; [exact E |]. rewrite (calls_silent op Q tr HQ Hall). lia.
Qed.

Lemma bounded_bind {A B} op (n1 n2 n : nat) (m : M A) (k : A -> M B) :
  bounded op n1 m -> (forall a, bounded op n2 (k a)) -> (n1 + n2 <= n)%nat ->
  bounded op n (bind m k).
Proof.
  intros Hm Hk Hle st. unfold bind.
  destruct (Hm st) as (tr1 & E1 & C1).
  destruct (m st) as [[a | e |] st1]; simpl in E1.
  - destruct (Hk a st1) as (tr2 & E2 & C2).
    exists (tr1 ++ tr2). rewrite E2, E1, app_assoc.
    split; [reflexivity | rewrite calls_app; lia].
  - exists tr1. split; [exact E1 | lia].
  - exists tr1. split; [exact E1 | lia].
Qed.

Lemma bounded_try_catch {A} op (n1 n2 n : nat) (m : M A) (h : Error -> M A) :
  bounded op n1 m -> (forall e, bounded op n2 (h e)) -> (n1 + n2 <= n)%nat ->
  bounded op n (try_catch m h).
Proof.
  intros Hm Hh Hle st. unfold try_catch.
  destruct (Hm st) as (tr1 & E1 & C1).
  destruct (m st) as [[a | e |] st1]; simpl in E1.
  - exists tr1. split; [exact E1 | lia].
  - destruct (Hh e st1) as (tr2 & E2 & C2).
    exists (tr1 ++ tr2). rewrite E2, E1, app_assoc.
    split; [reflexivity | rewrite calls_app; lia].
  - exists tr1. split; [exact E1 | lia].
Qed.

Lemma bounded_try_finally {A} op (n1 n2 n : nat) (m : M A) (c : M unit) :
  bounded op n1 m -> bounded op n2 c -> (n1 + n2 <= n)%nat ->
  bounded op n (try_finally m c).
Proof.
  intros Hm Hc Hle st. unfold try_finally.
  destruct (Hm st) as (tr1 & E1 & C1).
  destruct (m st) as [[a | e |] st1]; simpl in E1.
  - destruct (Hc st1) as (tr2 & E2 & C2).
    exists (tr1 ++ tr2).
    destruct (c st1) as [[u | e' |] st2]; simpl in E2 |- *;
      rewrite E2, E1, app_assoc;
      (split; [reflexivity | rewrite calls_app; lia]).
  - destruct (Hc st1) as (tr2 & E2 & C2).
    exists (tr1 ++ tr2).
    destruct (c st1) as [[u | e' |] st2]; simpl in E2 |- *;
      rewrite E2, E1, app_assoc;
      (split; [reflexivity | rewrite calls_app; lia]).
  - exists tr1. split; [exact E1 | lia].
Qed.

Lemma bounded_perform env op op' ev : bounded op 1 (perform env op' ev).
Proof.
  intros st. exists [ev]. unfold perform.
  destruct (fault env op' (calls op' (trace st))); simpl;
    (split; [reflexivity |]); unfold calls; simpl;
    destruct (isOp op ev); simpl; lia.
Qed.

Lemma bounded_quiet {A} op (m : M A) :
  (forall st, trace (snd (m st)) = trace st) -> bounded op 0 m.
Proof.
  intros Hm st. exists []. rewrite app_nil_r.
  split; [apply Hm | reflexivity].
Qed.

Lemma bounded_processPage env fuel options op :
  op = Goto \/ op = Authenticate ->
  bounded op 0 (processPage env fuel options).
Proof.
  intros Hop. apply (bounded_silent op pageEvent); [| apply appends_processPage].
  intros ev Hev. destruct Hop as [-> | ->]; destruct ev;
    try destruct Hev; reflexivity.
Qed.

Lemma bounded_cleanup env op :
  op = Goto \/ op = Authenticate -> bounded op 0 (cleanup env).
Proof.
  intros Hop st. destruct (cleanup_returns env st) as (tr & E & Hall).
  exists tr. rewrite E. split; [reflexivity |].
  rewrite (calls_silent op closeEvent tr); [lia | | exact Hall].
  intros ev Hev. destruct Hop as [-> | ->]; destruct ev;
    try destruct Hev; reflexivity.
Qed.

(** The inner [try ... catch]: one navigation, and in the handler at most
    one authentication and one more navigation. *)
Lemma bounded_firstAttemptOrRetry env fuel url options :
  bounded Goto 2 (firstAttemptOrRetry env fuel url options) /\
  bounded Authenticate 1 (firstAttemptOrRetry env fuel url options) /\
  (proxyConfigured options = false ->
   bounded Goto 1 (firstAttemptOrRetry env fuel url options) /\
   bounded Authenticate 0 (firstAttemptOrRetry env fuel url options)).
Proof.
  assert (HpG := bounded_processPage env fuel options Goto (or_introl eq_refl)).
  assert (HpA := bounded_processPage env fuel options Authenticate
                   (or_intror eq_refl)).
  assert (H1G : bounded Goto 1
                  (bind (goto env url) (fun _ => processPage env fuel options)))
    by (apply (bounded_bind Goto 1 0);
        [apply bounded_perform | intros _; exact HpG | lia]).
  assert (H1A : bounded Authenticate 0
                  (bind (goto env url) (fun _ => processPage env fuel options))).
  { apply (bounded_bind Authenticate 0 0); [| intros _; exact HpA | lia].
    intros st. exists [EvGoto url 120000]. unfold goto, perform.
    destruct (fault env Goto (calls Goto (trace st)));
      (split; [reflexivity | unfold calls; simpl; lia]). }
  assert (Hlog : forall op e,
             op = Goto \/ op = Authenticate ->
             bounded op 0
               (console_error (Some "Navigation error on first attempt:"%string) e)).
  { intros op e Hop st. exists [EvConsoleError (Some "Navigation error on first attempt:"%string) e].
    split; [reflexivity |]. destruct Hop as [-> | ->]; unfold calls; simpl; lia. }
  unfold firstAttemptOrRetry. split; [| split].
  - apply (bounded_try_catch Goto 1 1); [exact H1G | | lia].
    intros e. apply (bounded_bind Goto 0 1); [apply Hlog; auto | intros _ | lia].
    destruct (proxyConfigured options).
    + apply (bounded_bind Goto 0 1); [| intros _; exact H1G | lia].
      intros st. eexists [_]. unfold perform.
      destruct (fault env Authenticate (calls Authenticate (trace st)));
        (split; [reflexivity | unfold calls; simpl; lia]).
    + apply (bounded_weaken Goto 0); [lia |].
      apply bounded_quiet. reflexivity.
  - apply (bounded_try_catch Authenticate 0 1); [exact H1A | | lia].
    intros e. apply (bounded_bind Authenticate 0 1);
      [apply Hlog; auto | intros _ | lia].
    destruct (proxyConfigured options).
    + apply (bounded_bind Authenticate 1 0);
        [apply bounded_perform | intros _; exact H1A | lia].
    + apply (bounded_weaken Authenticate 0); [lia |].
      apply bounded_quiet. reflexivity.
  - intros Hno. rewrite Hno. split.
    + apply (bounded_try_catch Goto 1 0); [exact H1G | | lia].
      intros e. apply (bounded_bind Goto 0 0); [apply Hlog; auto | intros _ | lia].
      apply bounded_quiet. reflexivity.
    + apply (bounded_try_catch Authenticate 0 0); [exact H1A | | lia].
      intros e. apply (bounded_bind Authenticate 0 0);
        [apply Hlog; auto | intros _ | lia].
      apply bounded_quiet. reflexivity.
Qed.

(** A bound on the inner [try ... catch] is a bound on the whole run. *)
Lemma bounded_capture env fuel url options op (n : nat) :
  op = Goto \/ op = Authenticate ->
  bounded op n (firstAttemptOrRetry env fuel url options) ->
  bounded op n (captureFullPageScreenshot env fuel url options).
Proof.
  intros Hop Hfa.
  assert (Hev : forall op' ev,
             isOp op ev = false -> bounded op 0 (perform env op' ev)).
  { intros op' ev Hsil st. exists [ev]. unfold perform.
    destruct (fault env op' (calls op' (trace st)));
      (split; [reflexivity | unfold calls; simpl; rewrite Hsil; simpl; lia]). }
  unfold captureFullPageScreenshot.
  apply (bounded_try_finally op n 0); [| apply bounded_cleanup, Hop | lia].
  unfold pipeline.
  apply (bounded_bind op 0 n); [| intros _ | lia].
  { destruct (validURL env url); apply bounded_quiet; reflexivity. }
  apply (bounded_bind op 0 n); [| intros _ | lia].
  { apply Hev. destruct Hop as [-> | ->]; reflexivity. }
  apply (bounded_bind op 0 n); [apply bounded_quiet; reflexivity | intros _ | lia].
  apply (bounded_bind op 0 n); [| intros _ | lia].
  { apply Hev. destruct Hop as [-> | ->]; reflexivity. }
  apply (bounded_bind op 0 n); [| intros _ | lia].
  { intros st. exists [EvSetDefaultNavigationTimeout 120000].
    split; [reflexivity |]. destruct Hop as [-> | ->]; unfold calls; simpl; lia. }
  apply (bounded_bind op n 0); [exact Hfa | intros b | lia].
  apply bounded_quiet. reflexivity.
Qed.

End CountFacts.

(** X10: whatever the environment does, a run navigates at most twice and
    authenticates at most once; when the proxy is not configured it
    navigates at most once and never authenticates.  An error of the second
    attempt is therefore never retried. *)
Theorem at_most_two_navigations_and_one_authentication
    (env : Session.Env) (fuel : nat) (url : string)
    (options : Session.Options) :
  let tr := Session.trace
              (snd (Session.captureFullPageScreenshot env fuel url options
                      Session.initial)) in
  (Session.calls Session.Goto tr <= 2)%nat /\
  (Session.calls Session.Authenticate tr <= 1)%nat /\
  (Session.proxyConfigured options = false ->
   (Session.calls Session.Goto tr <= 1)%nat /\
   Session.calls Session.Authenticate tr = 0%nat).
Proof.
  intros tr. subst tr.
  destruct (bounded_firstAttemptOrRetry env fuel url options)
    as (HG & HA & Hno).
  split; [| split].
  - destruct (bounded_capture env fuel url options Session.Goto 2
                (or_introl eq_refl) HG Session.initial) as (tr & -> & Hc).
    exact Hc.
  - destruct (bounded_capture env fuel url options Session.Authenticate 1
                (or_intror eq_refl) HA Session.initial) as (tr & -> & Hc).
    exact Hc.
  - intros Hproxy. destruct (Hno Hproxy) as (HG1 & HA0). split.
    + destruct (bounded_capture env fuel url options Session.Goto 1
                  (or_introl eq_refl) HG1 Session.initial) as (tr & -> & Hc).
      exact Hc.
    + destruct (bounded_capture env fuel url options Session.Authenticate 0
                  (or_intror eq_refl) HA0 Session.initial) as (tr & -> & Hc).
      simpl in Hc |- *. lia.
Qed.

Section CaptureLoopFacts.
Import Session Describe.

Lemma bind_Returns_inv {A B} (m : M A) (k : A -> M B) st b st' :
  bind m k st = (Returns b, st') ->
  exists a st1, m st = (Returns a, st1) /\ k a st1 = (Returns b, st').
Proof.
  unfold bind. destruct (m st) as [[a | e |] st1]; intros E;
    [exists a, st1; split; [reflexivity | exact E] | discriminate | discriminate].
Qed.

Lemma perform_Returns_inv env op ev st u st' :
  perform env op ev st = (Returns u, st') -> st' = record ev st.
Proof.
  unfold perform. destruct (fault env op (calls op (trace st)));
    intros E; [discriminate | injection E as _ <-; reflexivity].
Qed.

Lemma calls_record_other op ev st :
  isOp op ev = false -> calls op (trace (record ev st)) = calls op (trace st).
Proof.
  intros H. rewrite trace_record, calls_app. unfold calls at 2. simpl.
  rewrite H. simpl. lia.
Qed.

Lemma calls_record_same op ev st :
  isOp op ev = true ->
  calls op (trace (record ev st)) = S (calls op (trace st)).
Proof.
  intros H. rewrite trace_record, calls_app. unfold calls at 2. simpl.
  rewrite H. simpl. lia.
Qed.

(** A capture loop that returns has taken one shot per offset, in order,
    with the pictures the environment gave. *)
Lemma captureEach_returns env positions :
  forall counter acc st shots st',
    captureEach env positions counter acc st = (Returns shots, st') ->
    shots = acc ++ shotsFrom env (calls Screenshot (trace st)) positions.
Proof.
  induction positions as [| p rest IH]; intros counter acc st shots st' E.
  - injection E as <- _. simpl. rewrite app_nil_r. reflexivity.
  - cbn [captureEach] in E.
    apply bind_Returns_inv in E as (u1 & st1 & E1 & E).
    apply perform_Returns_inv in E1. subst st1.
    apply bind_Returns_inv in E as (u2 & st2 & E2 & E).
    assert (Hst2 : calls Screenshot (trace st2) = calls Screenshot (trace st)).
    { destruct (counter =? 0); apply perform_Returns_inv in E2; subst st2;
        rewrite !calls_record_other; reflexivity. }
    apply bind_Returns_inv in E as (shot & st3 & E3 & E).
    unfold screenshot in E3.
    apply bind_Returns_inv in E3 as (u3 & st3' & E3 & E3').
    apply perform_Returns_inv in E3. subst st3'.
    injection E3' as <- <-.
    apply IH in E. rewrite E, calls_record_same by reflexivity.
    rewrite Hst2, <- app_assoc. reflexivity.
Qed.

Lemma shotsFrom_positions env positions :
  forall k, map Stitch.position (shotsFrom env k positions) = positions.
Proof.
  induction positions as [| p rest IH]; intros k; [reflexivity |].
  simpl. rewrite IH. reflexivity.
Qed.

(** The capture loop when no call is rejected. *)
Lemma captureEach_faultless env positions :
  (forall op k, fault env op k = None) ->
  forall counter acc st,
    0 <= counter ->
    captureEach env positions counter acc st
    = (Returns (acc ++ shotsFrom env (calls Screenshot (trace st)) positions),
       {| browser := browser st;
          trace := trace st ++ tileEvents (counter =? 0) positions |}).
Proof.
  intros Hfault.
  induction positions as [| p rest IH]; intros counter acc st Hc.
  - simpl. rewrite !app_nil_r. destruct st; reflexivity.
  - cbn [captureEach tileEvents shotsFrom].
    replace (counter + 1 =? 0) with false in IH |- *
      by (symmetry; apply Z.eqb_neq; lia).
    assert (Hnext : (counter + 1 =? 0) = false) by (apply Z.eqb_neq; lia).
    erewrite bind_returns by (apply perform_resolves, Hfault).
    destruct (counter =? 0);
      (erewrite bind_returns by (apply perform_resolves, Hfault);
       unfold screenshot at 1;
       erewrite bind_returns
         by (erewrite bind_returns by (apply perform_resolves, Hfault);
             reflexivity);
       rewrite IH by lia; rewrite Hnext;
       rewrite !calls_record_other by reflexivity;
       rewrite calls_record_same by reflexivity;
       rewrite !calls_record_other by reflexivity;
       cbn [record browser trace];
       rewrite <- !app_assoc; reflexivity).
Qed.

End CaptureLoopFacts.

(** X12: whenever [takeScreenshotsOfPage] returns, in any environment, the
    height it returns is the one measured after the normalizer has run, and
    its screenshots are one per offset of the plan computed for that
    height, in the order of the plan, each holding its offset and the
    picture taken there. *)
Theorem screenshots_follow_the_plan
    (env : Session.Env) (fuel : nat) (viewportHeight : Z) (overlap : option Z)
    (st st' : Session.State) (screenshots : list Stitch.Shot) (fullHeight : Z) :
  Session.takeScreenshotsOfPage env fuel viewportHeight overlap st
  = (Session.Returns (screenshots, fullHeight), st') ->
  fullHeight
  = Session.measuredHeight env
      (S (Session.calls Session.Evaluate (Session.trace st))) /\
  exists plan,
    planPositions fullHeight viewportHeight (Session.orDefault 100 overlap) fuel
    = Some plan /\
    map Stitch.position screenshots = plan /\
    screenshots
    = Describe.shotsFrom env
        (Session.calls Session.Screenshot (Session.trace st)) plan.
Proof.
  intros E. unfold Session.takeScreenshotsOfPage in E.
  apply bind_Returns_inv in E as (u1 & st1 & E1 & E).
  apply perform_Returns_inv in E1. subst st1.
  apply bind_Returns_inv in E as (h & st2 & E2 & E).
  unfold Session.evaluateFullHeight in E2.
  apply bind_Returns_inv in E2 as (u2 & st2' & E2 & E2').
  apply perform_Returns_inv in E2. subst st2'.
  injection E2' as <- <-.
  apply bind_Returns_inv in E as (positions & st3 & E3 & E).
  destruct (planPositions _ _ _ fuel) as [plan |] eqn:Hplan;
    [| discriminate E3].
  injection E3 as <- <-.
  apply bind_Returns_inv in E as (shots & st4 & E4 & E).
  injection E as <- <- _.
  apply captureEach_returns in E4. simpl app in E4.
  rewrite !calls_app in E4.
  change (Session.calls Session.Screenshot
            [Session.EvEvaluate Session.ConvertFixedElements]) with 0%nat in E4.
  change (Session.calls Session.Screenshot
            [Session.EvEvaluate Session.MeasureFullHeight]) with 0%nat in E4.
  rewrite !Nat.add_0_r in E4.
  cbn [Session.record Session.trace] in *.
  rewrite ?calls_app in *.
  change (Session.calls Session.Evaluate
            [Session.EvEvaluate Session.ConvertFixedElements]) with 1%nat in *.
  rewrite ?Nat.add_1_r in *.
  split; [reflexivity |].
  exists plan. split; [exact Hplan |]. split; [| exact E4].
  rewrite E4. apply shotsFrom_positions.
Qed.

Lemma screenshots_follow_the_plan_witness :
  2000
  = Session.measuredHeight Samples.calmEnv
      (S (Session.calls Session.Evaluate (Session.trace Session.initial))) /\
  exists plan,
    planPositions 2000 768 (Session.orDefault 100 (Some 100)) 5 = Some plan /\
    map Stitch.position (Describe.shotsFrom Samples.calmEnv 0 [0; 668; 1232])
    = plan /\
    Describe.shotsFrom Samples.calmEnv 0 [0; 668; 1232]
    = Describe.shotsFrom Samples.calmEnv
        (Session.calls Session.Screenshot (Session.trace Session.initial)) plan.
Proof.
  apply (screenshots_follow_the_plan Samples.calmEnv 5 768 (Some 100)
           Session.initial
           (snd (Session.takeScreenshotsOfPage Samples.calmEnv 5 768 (Some 100)
                   Session.initial))).
  reflexivity.
Defined.

Section FaultlessFacts.
Import Session Describe.

Lemma try_catch_returns {A} (m : M A) (h : Error -> M A) st a st' :
  m st = (Returns a, st') -> try_catch m h st = (Returns a, st').
Proof. intros E. unfold try_catch. rewrite E. reflexivity. Qed.

(** [processPage] when no call is rejected, entered with one navigation
    done and no page evaluated yet. *)
Lemma processPage_faultless env fuel options st plan canvas :
  (forall op k, fault env op k = None) ->
  calls Evaluate (trace st) = 0%nat ->
  calls Screenshot (trace st) = 0%nat ->
  planPositions (measuredHeight env 1)
    (orDefault 768 (opt_viewportHeight options))
    (orDefault 100 (opt_overlap options)) fuel = Some plan ->
  Stitch.stitchScreenshots (shotsFrom env 0 plan) (measuredHeight env 1)
    (orDefault 1366 (opt_viewportWidth options))
    (orDefault 768 (opt_viewportHeight options)) = Sharp.Done canvas ->
  processPage env fuel options st
  = (Returns canvas,
     {| browser := browser st;
        trace := trace st
                 ++ [EvWaitForTimeout 4000;
                     EvEvaluate ConvertFixedElements;
                     EvEvaluate MeasureFullHeight]
                 ++ tileEvents true plan |}).
Proof.
  intros Hfault HE HS Hplan Hstitch.
  unfold processPage.
  erewrite bind_returns by (apply perform_resolves, Hfault).
  set (st1 := record (EvWaitForTimeout 4000) st).
  assert (Htake :
            takeScreenshotsOfPage env fuel
              (orDefault 768 (opt_viewportHeight options))
              (Some (orDefault 100 (opt_overlap options))) st1
            = (Returns (shotsFrom env 0 plan, measuredHeight env 1),
               {| browser := browser st;
                  trace := trace st
                           ++ [EvWaitForTimeout 4000;
                               EvEvaluate ConvertFixedElements;
                               EvEvaluate MeasureFullHeight]
                           ++ tileEvents true plan |})).
  { unfold takeScreenshotsOfPage. cbn [orDefault].
    erewrite bind_returns by (apply perform_resolves, Hfault).
    set (st2 := record (EvEvaluate ConvertFixedElements) st1).
    assert (HE2 : calls Evaluate (trace st2) = 1%nat).
    { subst st2 st1. rewrite calls_record_same by reflexivity.
      rewrite calls_record_other by reflexivity. rewrite HE. reflexivity. }
    erewrite bind_returns
      by (unfold evaluateFullHeight;
          erewrite bind_returns by (apply perform_resolves, Hfault);
          unfold ret; rewrite HE2; reflexivity).
    rewrite Hplan.
    erewrite bind_returns by reflexivity.
    erewrite bind_returns
      by (apply captureEach_faultless; [exact Hfault | lia]).
    subst st2 st1.
    rewrite !calls_record_other by reflexivity. rewrite HS.
    unfold ret. cbn [record trace browser app Z.eqb].
    rewrite <- !app_assoc. reflexivity. }
  erewrite bind_returns by exact Htake.
  cbv beta iota. rewrite Hstitch. reflexivity.
Qed.

End FaultlessFacts.

(** X13: a run in which no call is rejected.  With a valid URL, a plan for
    the measured height and tiles that [sharp] accepts, the run returns the
    stitched canvas after exactly these calls: launch, new page, one
    navigation, a wait of 4000 ms, the normalizer, the measure, then for
    each offset of the plan a scroll, a wait (2000 ms for the first tile,
    500 ms for the others) and a screenshot, and finally one close; there
    is no authentication and no second navigation. *)
Theorem faultless_run_returns_the_stitched_page
    (env : Session.Env) (fuel : nat) (url : string)
    (options : Session.Options) (plan : list Z) (canvas : Sharp.Canvas) :
  Session.validURL env url = true ->
  (forall op k, Session.fault env op k = None) ->
  planPositions (Session.measuredHeight env 1)
    (Session.orDefault 768 (Session.opt_viewportHeight options))
    (Session.orDefault 100 (Session.opt_overlap options)) fuel = Some plan ->
  Stitch.stitchScreenshots (Describe.shotsFrom env 0 plan)
    (Session.measuredHeight env 1)
    (Session.orDefault 1366 (Session.opt_viewportWidth options))
    (Session.orDefault 768 (Session.opt_viewportHeight options))
  = Sharp.Done canvas ->
  Session.captureFullPageScreenshot env fuel url options Session.initial
  = (Session.Returns canvas,
     {| Session.browser := true;
        Session.trace :=
          [ Session.EvLaunch
              (Session.orDefault 1366 (Session.opt_viewportWidth options))
              (Session.orDefault 768 (Session.opt_viewportHeight options))
              (if Session.truthy (Session.opt_executablePathOverride options)
               then Session.opt_executablePathOverride options
               else Session.chromium_executablePath env);
            Session.EvNewPage;
            Session.EvSetDefaultNavigationTimeout 120000;
            Session.EvGoto url 120000;
            Session.EvWaitForTimeout 4000;
            Session.EvEvaluate Session.ConvertFixedElements;
            Session.EvEvaluate Session.MeasureFullHeight ]
          ++ Describe.tileEvents true plan
          ++ [Session.EvClose] |}).
Proof.
  intros Hurl Hfault Hplan Hstitch.
  unfold Session.captureFullPageScreenshot, Session.try_finally,
    Session.pipeline.
  rewrite Hurl.
  erewrite bind_returns by reflexivity.
  erewrite bind_returns by (apply perform_resolves, Hfault).
  erewrite bind_returns by reflexivity.
  erewrite bind_returns by (apply perform_resolves, Hfault).
  erewrite bind_returns by reflexivity.
  rewrite bind_ret_r.
  unfold Session.firstAttemptOrRetry.
  erewrite try_catch_returns.
  2:{ erewrite bind_returns by (apply perform_resolves, Hfault).
      apply (processPage_faultless env fuel options _ plan canvas Hfault);
        [reflexivity | reflexivity | exact Hplan | exact Hstitch]. }
  unfold Session.cleanup. cbn [Session.browser].
  unfold Session.try_catch. rewrite perform_resolves by apply Hfault.
  cbn [Session.record Session.trace Session.browser app].
  rewrite <- !app_assoc. reflexivity.
Qed.

Lemma faultless_run_returns_the_stitched_page_witness :
  exists canvas,
    Session.captureFullPageScreenshot Samples.calmEnv 5 Samples.exampleURL
      Session.noOptions Session.initial
    = (Session.Returns canvas,
       {| Session.browser := true;
          Session.trace :=
            [ Session.EvLaunch 1366 768 None;
              Session.EvNewPage;
              Session.EvSetDefaultNavigationTimeout 120000;
              Session.EvGoto Samples.exampleURL 120000;
              Session.EvWaitForTimeout 4000;
              Session.EvEvaluate Session.ConvertFixedElements;
              Session.EvEvaluate Session.MeasureFullHeight ]
            ++ Describe.tileEvents true [0; 668; 1232]
            ++ [Session.EvClose] |}).
Proof.
  eexists.
  apply (faultless_run_returns_the_stitched_page Samples.calmEnv 5
           Samples.exampleURL Session.noOptions [0; 668; 1232]).
  - reflexivity.
  - intros op k. reflexivity.
  - reflexivity.
  - reflexivity.
Defined.

(** ** Saving the screenshot *)

(** X14: [saveScreenshotToFile] touches the file system only after a
    capture that returned: a directory is created only then, and it is the
    directory of the output file; a file is written only if moreover
    [mkdir] has resolved or failed with [EEXIST], and what is written is the
    captured buffer, to the output file. *)
Theorem save_touches_files_only_after_capture
    (env : Session.Env) (fs : Files.FsEnv) (fuel : nat)
    (url outputFile : string) :
  let capture := Session.captureFullPageScreenshot env fuel url
                   Files.savedOptions Session.initial in
  let events := snd (Files.saveScreenshotToFile env fs fuel url outputFile) in
  (forall directory,
      In (Files.FsMkdir directory) events <->
      directory = Files.dirname fs outputFile /\
      exists buffer, fst capture = Session.Returns buffer) /\
  (forall file data,
      In (Files.FsWriteFile file data) events <->
      file = outputFile /\
      fst capture = Session.Returns data /\
      forall error, Files.mkdirError fs = Some error ->
                    Files.notEEXIST error = false).
Proof.
  intros capture events. subst events capture.
  unfold Files.saveScreenshotToFile, Files.ensureDirectoryExists.
  destruct (Session.captureFullPageScreenshot env fuel url Files.savedOptions
              Session.initial) as [[buffer | e |] st]; cbn [fst snd].
  - destruct (Files.mkdirError fs) as [error |] eqn:Hmk.
    + destruct (Files.notEEXIST error) eqn:Hcode; cbn [fst snd app].
      * split.
        -- intros directory. split.
           ++ intros [[= <-] | []]. split; [reflexivity | eexists; reflexivity].
           ++ intros (-> & _). left. reflexivity.
        -- intros file data. split.
           ++ intros [[=] | []].
           ++ intros (_ & _ & Hok). specialize (Hok error eq_refl). congruence.
      * destruct (Files.writeFileError fs); cbn [fst snd app].
        -- split.
           ++ intros directory. split.
              ** intros [[= <-] | [[=] | []]].
                 split; [reflexivity | eexists; reflexivity].
              ** intros (-> & _). left. reflexivity.
           ++ intros file data. split.
              ** intros [[=] | [[= <- <-] | []]].
                 split; [reflexivity | split; [reflexivity |]].
                 intros error' [= <-]. exact Hcode.
              ** intros (-> & [= <-] & _). right. left. reflexivity.
        -- split.
           ++ intros directory. split.
              ** intros [[= <-] | [[=] | [[=] | []]]].
                 split; [reflexivity | eexists; reflexivity].
              ** intros (-> & _). left. reflexivity.
           ++ intros file data. split.
              ** intros [[=] | [[= <- <-] | [[=] | []]]].
                 split; [reflexivity | split; [reflexivity |]].
                 intros error' [= <-]. exact Hcode.
              ** intros (-> & [= <-] & _). right. left. reflexivity.
    + destruct (Files.writeFileError fs); cbn [fst snd app].
      * split.
        -- intros directory. split.
           ++ intros [[= <-] | [[=] | []]].
              split; [reflexivity | eexists; reflexivity].
           ++ intros (-> & _). left. reflexivity.
        -- intros file data. split.
           ++ intros [[=] | [[= <- <-] | []]].
              split; [reflexivity | split; [reflexivity |]].
              intros error' [=].
           ++ intros (-> & [= <-] & _). right. left. reflexivity.
      * split.
        -- intros directory. split.
           ++ intros [[= <-] | [[=] | [[=] | []]]].
              split; [reflexivity | eexists; reflexivity].
           ++ intros (-> & _). left. reflexivity.
        -- intros file data. split.
           ++ intros [[=] | [[= <- <-] | [[=] | []]]].
              split; [reflexivity | split; [reflexivity |]].
              intros error' [=].
           ++ intros (-> & [= <-] & _). right. left. reflexivity.
  - split.
    + intros directory. split; [intros [] | intros (_ & b & [=])].
    + intros file data. split; [intros [] | intros (_ & [=] & _)].
  - split.
    + intros directory. split; [intros [] | intros (_ & b & [=])].
    + intros file data. split; [intros [] | intros (_ & [=] & _)].
Qed.

(** X15: when the capture returns, [mkdir] resolves or fails with [EEXIST],
    and [writeFile] resolves, [saveScreenshotToFile] completes after exactly
    three calls: the directory of the output file is created, the captured
    buffer is written to the output file, and the path is logged. *)
Theorem save_succeeds_when_directory_exists_already
    (env : Session.Env) (fs : Files.FsEnv) (fuel : nat)
    (url outputFile : string) (buffer : Sharp.Buffer) :
  fst (Session.captureFullPageScreenshot env fuel url Files.savedOptions
         Session.initial) = Session.Returns buffer ->
  (forall error, Files.mkdirError fs = Some error ->
                 Files.notEEXIST error = false) ->
  Files.writeFileError fs = None ->
  Files.saveScreenshotToFile env fs fuel url outputFile
  = (Files.Saved,
     snd (Session.captureFullPageScreenshot env fuel url Files.savedOptions
            Session.initial),
     [ Files.FsMkdir (Files.dirname fs outputFile);
       Files.FsWriteFile outputFile buffer;
       Files.ConsoleLog ("Saved screenshot to " ++ outputFile)%string ]).
Proof.
  intros Hcap Hmk Hwrite.
  unfold Files.saveScreenshotToFile, Files.ensureDirectoryExists.
  destruct (Session.captureFullPageScreenshot env fuel url Files.savedOptions
              Session.initial) as [r st].
  cbn [fst snd] in *. subst r.
  destruct (Files.mkdirError fs) as [error |].
  - rewrite (Hmk error eq_refl), Hwrite. reflexivity.
  - rewrite Hwrite. reflexivity.
Qed.

Lemma save_succeeds_when_directory_exists_already_witness :
  exists buffer,
    Files.saveScreenshotToFile MoreSamples.calmWideEnv MoreSamples.existingDirFs
      5 Samples.exampleURL "./output/example.png"
    = (Files.Saved,
       snd (Session.captureFullPageScreenshot MoreSamples.calmWideEnv 5
              Samples.exampleURL Files.savedOptions Session.initial),
       [ Files.FsMkdir (Files.dirname MoreSamples.existingDirFs
                          "./output/example.png");
         Files.FsWriteFile "./output/example.png" buffer;
         Files.ConsoleLog
           ("Saved screenshot to " ++ "./output/example.png")%string ]).
Proof.
  eexists.
  apply (save_succeeds_when_directory_exists_already MoreSamples.calmWideEnv
           MoreSamples.existingDirFs 5 Samples.exampleURL
           "./output/example.png").
  - vm_compute. reflexivity.
  - intros error [= <-]. reflexivity.
  - reflexivity.
Defined.

(** X16: when the capture returns and [mkdir] fails with an error whose code
    is not [EEXIST], or that has no code, that error is thrown and nothing
    is written or logged. *)
Theorem save_stops_when_mkdir_fails
    (env : Session.Env) (fs : Files.FsEnv) (fuel : nat)
    (url outputFile : string) (buffer : Sharp.Buffer) (error : Files.FsError) :
  fst (Session.captureFullPageScreenshot env fuel url Files.savedOptions
         Session.initial) = Session.Returns buffer ->
  Files.mkdirError fs = Some error ->
  Files.notEEXIST error = true ->
  Files.saveScreenshotToFile env fs fuel url outputFile
  = (Files.Failed (Files.FsFailed error),
     snd (Session.captureFullPageScreenshot env fuel url Files.savedOptions
            Session.initial),
     [Files.FsMkdir (Files.dirname fs outputFile)]).
Proof.
  intros Hcap Hmk Hcode.
  unfold Files.saveScreenshotToFile, Files.ensureDirectoryExists.
  destruct (Session.captureFullPageScreenshot env fuel url Files.savedOptions
              Session.initial) as [r st].
  cbn [fst snd] in *. subst r.
  rewrite Hmk, Hcode. reflexivity.
Qed.

Lemma save_stops_when_mkdir_fails_witness :
  Files.saveScreenshotToFile MoreSamples.calmWideEnv MoreSamples.deniedFs
    5 Samples.exampleURL "/root/output/example.png"
  = (Files.Failed
       (Files.FsFailed {| Files.code := Some "EACCES"%string;
                          Files.message := "permission denied"%string |}),
     snd (Session.captureFullPageScreenshot MoreSamples.calmWideEnv 5
            Samples.exampleURL Files.savedOptions Session.initial),
     [Files.FsMkdir (Files.dirname MoreSamples.deniedFs
                       "/root/output/example.png")]).
Proof.
  apply (save_stops_when_mkdir_fails MoreSamples.calmWideEnv
           MoreSamples.deniedFs 5 Samples.exampleURL
           "/root/output/example.png"
           (match fst (Session.captureFullPageScreenshot
                         MoreSamples.calmWideEnv 5 Samples.exampleURL
                         Files.savedOptions Session.initial) with
            | Session.Returns buffer => buffer
            | _ => Describe.blankCanvas 0 0
            end)).
  - vm_compute. reflexivity.
  - reflexivity.
  - reflexivity.
Defined.

(** ** The measured height and the plan *)

Lemma plan_offsets_within (totalHeight viewportHeight overlap : Z)
    (fuel : nat) (plan : list Z) :
  0 <= overlap < viewportHeight ->
  viewportHeight <= totalHeight ->
  planPositions totalHeight viewportHeight overlap fuel = Some plan ->
  forall o, In o plan -> 0 <= o /\ o + viewportHeight <= totalHeight.
Proof.
  intros Hov Htall Hp.
  apply planPositions_shape in Hp as (tl & Hch & ->).
  assert (Hloop : forall o, In o (0 :: tl) ->
                            0 <= o /\ o + viewportHeight <= totalHeight).
  { intros o [<- | Hin]; [lia |]. split.
    - apply (chain_nonneg totalHeight viewportHeight overlap tl 0 o);
        [lia | lia | exact Hch | exact Hin].
    - apply (chain_in totalHeight viewportHeight overlap tl 0 o Hch Hin). }
  unfold snap.
  destruct (snapNeeded totalHeight viewportHeight overlap (0 :: tl));
    [| exact Hloop].
  intros o Hin. apply in_app_or in Hin as [Hin | [<- | []]].
  - apply Hloop, Hin.
  - unfold finalPos. lia.
Qed.

(** X18: the height measured in the page is the largest of the six heights
    read, hence at least the client height of the document element.  When
    the viewport is no taller than that client height (and
    [0 <= overlap < viewportHeight]), the loop of the planner terminates on
    the measured height and every tile of the plan lies within it. *)
Theorem measured_height_holds_every_tile
    (document : Page.Heights) (viewportHeight overlap : Z) (fuel : nat) :
  0 <= overlap < viewportHeight ->
  viewportHeight <= Page.documentElement_clientHeight document ->
  (Z.to_nat (Page.fullHeight document - viewportHeight) < fuel)%nat ->
  Page.body_scrollHeight document <= Page.fullHeight document /\
  Page.documentElement_scrollHeight document <= Page.fullHeight document /\
  Page.body_offsetHeight document <= Page.fullHeight document /\
  Page.documentElement_offsetHeight document <= Page.fullHeight document /\
  Page.body_clientHeight document <= Page.fullHeight document /\
  Page.documentElement_clientHeight document <= Page.fullHeight document /\
  exists plan,
    planPositions (Page.fullHeight document) viewportHeight overlap fuel
    = Some plan /\
    forall o, In o plan ->
              0 <= o /\ o + viewportHeight <= Page.fullHeight document.
Proof.
  intros Hov Hclient Hfuel.
  assert (Hmax :
            Page.body_scrollHeight document <= Page.fullHeight document /\
            Page.documentElement_scrollHeight document <= Page.fullHeight document /\
            Page.body_offsetHeight document <= Page.fullHeight document /\
            Page.documentElement_offsetHeight document <= Page.fullHeight document /\
            Page.body_clientHeight document <= Page.fullHeight document /\
            Page.documentElement_clientHeight document <= Page.fullHeight document)
    by (unfold Page.fullHeight; lia).
  destruct Hmax as (H1 & H2 & H3 & H4 & H5 & H6).
  repeat (split; [assumption |]).
  destruct (planPositions_terminates (Page.fullHeight document)
              viewportHeight overlap fuel) as (plan & Hp);
    [lia | exact Hfuel |].
  exists plan. split; [exact Hp |].
  apply (plan_offsets_within (Page.fullHeight document) viewportHeight
           overlap fuel plan); [exact Hov | lia | exact Hp].
Qed.

Lemma measured_height_holds_every_tile_witness :
  Page.body_scrollHeight MoreSamples.tallDocument
    <= Page.fullHeight MoreSamples.tallDocument /\
  Page.documentElement_scrollHeight MoreSamples.tallDocument
    <= Page.fullHeight MoreSamples.tallDocument /\
  Page.body_offsetHeight MoreSamples.tallDocument
    <= Page.fullHeight MoreSamples.tallDocument /\
  Page.documentElement_offsetHeight MoreSamples.tallDocument
    <= Page.fullHeight MoreSamples.tallDocument /\
  Page.body_clientHeight MoreSamples.tallDocument
    <= Page.fullHeight MoreSamples.tallDocument /\
  Page.documentElement_clientHeight MoreSamples.tallDocument
    <= Page.fullHeight MoreSamples.tallDocument /\
  exists plan,
    planPositions (Page.fullHeight MoreSamples.tallDocument) 768 100 1233
    = Some plan /\
    forall o, In o plan ->
              0 <= o /\ o + 768 <= Page.fullHeight MoreSamples.tallDocument.
Proof.
  apply (measured_height_holds_every_tile MoreSamples.tallDocument 768 100 1233).
  - lia.
  - simpl. lia.
  - vm_compute. lia.
Defined.

(** ** Runs that complete, and runs whose planner reaches its [break] *)

Section HaltFacts.
Import Session Describe.

Lemma halts_ret {A} (a : A) : halts (ret a).
Proof. intros st. discriminate. Qed.

Lemma halts_throw {A} e : halts (@throw A e).
Proof. intros st. discriminate. Qed.

Lemma halts_bind {A B} (m : M A) (k : A -> M B) :
  halts m -> (forall a, halts (k a)) -> halts (bind m k).
Proof.
  intros Hm Hk st. unfold bind. specialize (Hm st).
  destruct (m st) as [[a | e |] st1]; simpl in *;
    [apply Hk | discriminate | congruence].
Qed.

Lemma halts_try_catch {A} (m : M A) (h : Error -> M A) :
  halts m -> (forall e, halts (h e)) -> halts (try_catch m h).
Proof.
  intros Hm Hh st. unfold try_catch. specialize (Hm st).
  destruct (m st) as [[a | e |] st1]; simpl in *;
    [discriminate | apply Hh | congruence].
Qed.

Lemma halts_try_finally {A} (m : M A) (c : M unit) :
  halts m -> halts c -> halts (try_finally m c).
Proof.
  intros Hm Hc st. unfold try_finally. specialize (Hm st).
  destruct (m st) as [[a | e |] st1]; simpl in *; try congruence;
    specialize (Hc st1); destruct (c st1) as [[u | e' |] st2]; simpl in *;
      congruence.
Qed.

Lemma halts_perform env op ev : halts (perform env op ev).
Proof.
  intros st. unfold perform.
  destruct (fault env op (calls op (trace st))); discriminate.
Qed.

Lemma halts_log ev : halts (log ev).
Proof. intros st. discriminate. Qed.

Lemma halts_captureEach env positions :
  forall counter screenshots,
    halts (captureEach env positions counter screenshots).
Proof.
  induction positions as [| p rest IH]; intros counter screenshots; simpl.
  - apply halts_ret.
  - apply halts_bind; [apply halts_perform | intros _].
    apply halts_bind; [destruct (counter =? 0); apply halts_perform | intros _].
    apply halts_bind; [| intros shot; apply IH].
    intros st. unfold screenshot.
    apply (halts_bind (perform env Screenshot EvScreenshot));
      [apply halts_perform | intros _; apply halts_ret].
Qed.

Lemma halts_processPage env fuel options : halts (processPage env fuel options).
Proof.
  unfold processPage.
  apply halts_bind; [apply halts_perform | intros _].
  apply halts_bind.
  - unfold takeScreenshotsOfPage.
    apply halts_bind; [apply halts_perform | intros _].
    apply halts_bind.
    { intros st. unfold evaluateFullHeight.
      apply (halts_bind (evaluate env MeasureFullHeight));
        [apply halts_perform | intros _; apply halts_ret]. }
    intros fullHeight. apply halts_bind.
    { destruct (planPositions _ _ _ _); [apply halts_ret | apply halts_throw]. }
    intros positions.
    apply halts_bind; [apply halts_captureEach | intros shots; apply halts_ret].
  - intros [screenshots fullHeight]. unfold settle.
    destruct (Stitch.stitchScreenshots _ _ _ _);
      [apply halts_ret | apply halts_throw].
Qed.

(** What follows the assignment to [browser] in the block of [try]
    completes. *)
Lemma halts_after_launch env fuel url options :
  halts
    (bind (perform env NewPage EvNewPage)
       (fun _ => bind (log (EvSetDefaultNavigationTimeout 120000))
          (fun _ => bind (firstAttemptOrRetry env fuel url options)
             (fun finalBuffer => ret finalBuffer)))).
Proof.
  pose proof (halts_processPage env fuel options) as Hpage.
  apply halts_bind; [apply halts_perform | intros _].
  apply halts_bind; [apply halts_log | intros _].
  apply halts_bind; [| intros b; apply halts_ret].
  unfold firstAttemptOrRetry. apply halts_try_catch.
  - apply halts_bind; [apply halts_perform | intros _; exact Hpage].
  - intros e. apply halts_bind; [apply halts_log | intros _].
    destruct (proxyConfigured options); [| apply halts_throw].
    apply halts_bind; [apply halts_perform | intros _].
    apply halts_bind; [apply halts_perform | intros _; exact Hpage].
Qed.

(** Every run completes: each call is awaited with an outcome, and the loop
    of the planner ends in its [break] or in a [RangeError]. *)
Lemma capture_halts env fuel url options :
  halts (captureFullPageScreenshot env fuel url options).
Proof.
  unfold captureFullPageScreenshot. apply halts_try_finally.
  - unfold pipeline.
    apply halts_bind;
      [destruct (validURL env url); [apply halts_ret | apply halts_throw]
      | intros _].
    apply halts_bind; [apply halts_perform | intros _].
    apply halts_bind; [intros st; discriminate | intros _].
    apply halts_after_launch.
  - intros st. unfold cleanup. destruct (browser st); [| discriminate].
    apply (halts_try_catch (perform env Close EvClose));
      [apply halts_perform | intros e; apply halts_log].
Qed.

End HaltFacts.

Section TidyFacts.
Import Session Describe.

Lemma tidy_ret {A} (a : A) : tidy (ret a).
Proof.
  intros st. split; [intros e H; discriminate H |].
  exists []. rewrite app_nil_r. split; [reflexivity | constructor].
Qed.

Lemma tidy_throw {A} e : ~ isRangeError e -> tidy (@throw A e).
Proof.
  intros He st. split; [intros e' [= <-]; exact He |].
  exists []. rewrite app_nil_r. split; [reflexivity | constructor].
Qed.

Lemma tidy_bind_returning {A B} (P : A -> Prop) (m : M A) (k : A -> M B) :
  (forall st a st', m st = (Returns a, st') -> P a) ->
  tidy m -> (forall a, P a -> tidy (k a)) -> tidy (bind m k).
Proof.
  intros HP Hm Hk st. unfold bind.
  destruct (Hm st) as (T1 & tr1 & E1 & F1).
  destruct (m st) as [[a | e |] st1] eqn:E; simpl in E1, T1.
  - destruct (Hk a (HP st a st1 E) st1) as (T2 & tr2 & E2 & F2).
    split; [exact T2 |].
    exists (tr1 ++ tr2). rewrite E2, E1, app_assoc.
    split; [reflexivity | apply Forall_app; split; assumption].
  - split; [| exists tr1; split; assumption].
    intros e0 H. simpl in H. injection H as <-. exact (T1 e eq_refl).
  - split; [intros e H; discriminate H | exists tr1; split; assumption].
Qed.

Lemma tidy_bind {A B} (m : M A) (k : A -> M B) :
  tidy m -> (forall a, tidy (k a)) -> tidy (bind m k).
Proof.
  intros Hm Hk. apply (tidy_bind_returning (fun _ => True));
    [intros; exact I | exact Hm | intros a _; apply Hk].
Qed.

Lemma tidy_try_catch {A} (m : M A) (h : Error -> M A) :
  tidy m -> (forall e, ~ isRangeError e -> tidy (h e)) -> tidy (try_catch m h).
Proof.
  intros Hm Hh st. unfold try_catch.
  destruct (Hm st) as (T1 & tr1 & E1 & F1).
  destruct (m st) as [[a | e |] st1]; simpl in E1, T1.
  - split; [intros e H; discriminate H | exists tr1; split; assumption].
  - destruct (Hh e (T1 e eq_refl) st1) as (T2 & tr2 & E2 & F2).
    split; [exact T2 |].
    exists (tr1 ++ tr2). rewrite E2, E1, app_assoc.
    split; [reflexivity | apply Forall_app; split; assumption].
  - split; [intros e H; discriminate H | exists tr1; split; assumption].
Qed.

Lemma tidy_try_finally {A} (m : M A) (c : M unit) :
  tidy m -> tidy c -> tidy (try_finally m c).
Proof.
  intros Hm Hc st. unfold try_finally.
  destruct (Hm st) as (T1 & tr1 & E1 & F1).
  destruct (m st) as [[a | e |] st1]; simpl in E1, T1.
  - destruct (Hc st1) as (T2 & tr2 & E2 & F2).
    destruct (c st1) as [[u | e' |] st2]; simpl in E2, T2 |- *;
      (split;
       [intros e0 H; first [discriminate H
                           | injection H as <-; exact (T2 _ eq_refl)]
       | exists (tr1 ++ tr2); rewrite E2, E1, app_assoc;
         split; [reflexivity | apply Forall_app; split; assumption]]).
  - destruct (Hc st1) as (T2 & tr2 & E2 & F2).
    destruct (c st1) as [[u | e' |] st2]; simpl in E2, T2 |- *;
      (split;
       [intros e0 H; first [discriminate H
                           | injection H as <-;
                             first [exact (T1 _ eq_refl) | exact (T2 _ eq_refl)]]
       | exists (tr1 ++ tr2); rewrite E2, E1, app_assoc;
         split; [reflexivity | apply Forall_app; split; assumption]]).
  - split; [intros e H; discriminate H | exists tr1; split; assumption].
Qed.

Lemma tidy_perform env op ev :
  noRangeErrorLogged ev -> tidy (perform env op ev).
Proof.
  intros Hev st. unfold perform.
  destruct (fault env op (calls op (trace st))); simpl;
    (split; [intros e H; try discriminate H; injection H as <-; exact (fun x => x)
            | exists [ev]; split; [reflexivity | repeat constructor; exact Hev]]).
Qed.

Lemma tidy_log ev : noRangeErrorLogged ev -> tidy (log ev).
Proof.
  intros Hev st. split; [intros e H; discriminate H |].
  exists [ev]. split; [reflexivity | repeat constructor; exact Hev].
Qed.

Lemma tidy_captureEach env positions :
  forall counter screenshots,
    tidy (captureEach env positions counter screenshots).
Proof.
  induction positions as [| p rest IH]; intros counter screenshots; simpl.
  - apply tidy_ret.
  - apply tidy_bind; [apply tidy_perform; exact I | intros _].
    apply tidy_bind;
      [destruct (counter =? 0); apply tidy_perform; exact I | intros _].
    apply tidy_bind; [| intros shot; apply IH].
    intros st. unfold screenshot.
    apply (tidy_bind (perform env Screenshot EvScreenshot));
      [apply tidy_perform; exact I | intros _; apply tidy_ret].
Qed.

(** With a positive stride and an array that may hold the offsets of the
    tallest page the environment reports, nothing in a run throws or logs a
    [RangeError]. *)
Lemma capture_tidy env fuel url options :
  orDefault 100 (opt_overlap options) < orDefault 768 (opt_viewportHeight options) ->
  (forall k,
      (Z.to_nat (measuredHeight env k
                 - orDefault 768 (opt_viewportHeight options))%Z < fuel)%nat) ->
  tidy (captureFullPageScreenshot env fuel url options).
Proof.
  intros Hstep Hfuel.
  assert (Hpage : tidy (processPage env fuel options)).
  { unfold processPage.
    apply tidy_bind; [apply tidy_perform; exact I | intros _].
    apply tidy_bind.
    - unfold takeScreenshotsOfPage.
      apply tidy_bind; [apply tidy_perform; exact I | intros _].
      apply (tidy_bind_returning
               (fun fullHeight => exists k, fullHeight = measuredHeight env k)).
      + intros st a st' E. unfold evaluateFullHeight, bind, evaluate, perform in E.
        destruct (fault env Evaluate (calls Evaluate (trace st)));
          [discriminate |].
        injection E as <- _. eexists; reflexivity.
      + intros st. unfold evaluateFullHeight.
        apply (tidy_bind (evaluate env MeasureFullHeight));
          [apply tidy_perform; exact I | intros _; apply tidy_ret].
      + intros fullHeight (k & ->).
        destruct (planPositions_terminates (measuredHeight env k)
                    (orDefault 768 (opt_viewportHeight options))
                    (orDefault 100 (opt_overlap options)) fuel Hstep (Hfuel k))
          as (plan & Hplan).
        cbn [orDefault]. rewrite Hplan.
        apply tidy_bind; [apply tidy_ret | intros positions].
        apply tidy_bind; [apply tidy_captureEach | intros shots; apply tidy_ret].
    - intros [screenshots fullHeight]. unfold settle.
      destruct (Stitch.stitchScreenshots _ _ _ _);
        [apply tidy_ret | apply tidy_throw; exact (fun x => x)]. }
  unfold captureFullPageScreenshot. apply tidy_try_finally.
  - unfold pipeline.
    apply tidy_bind;
      [destruct (validURL env url);
       [apply tidy_ret | apply tidy_throw; exact (fun x => x)]
      | intros _].
    apply tidy_bind; [apply tidy_perform; exact I | intros _].
    apply tidy_bind.
    { intros st. split; [intros e H; discriminate H |].
      exists []. simpl. rewrite app_nil_r. split; [reflexivity | constructor]. }
    intros _.
    apply tidy_bind; [apply tidy_perform; exact I | intros _].
    apply tidy_bind; [apply tidy_log; exact I | intros _].
    apply tidy_bind; [| intros b; apply tidy_ret].
    unfold firstAttemptOrRetry. apply tidy_try_catch.
    + apply tidy_bind; [apply tidy_perform; exact I | intros _; exact Hpage].
    + intros e He. apply tidy_bind; [apply tidy_log; exact He | intros _].
      destruct (proxyConfigured options); [| apply tidy_throw; exact He].
      apply tidy_bind; [apply tidy_perform; exact I | intros _].
      apply tidy_bind; [apply tidy_perform; exact I | intros _; exact Hpage].
  - intros st. unfold cleanup. destruct (browser st).
    + apply (tidy_try_catch (perform env Close EvClose));
        [apply tidy_perform; exact I | intros e He; apply tidy_log; exact He].
    + apply tidy_ret.
Qed.

End TidyFacts.

(** X9: once the browser is launched, a run closes it exactly once,
    wherever the run failed, also when the loop of the planner ended in a
    [RangeError]. *)
Theorem browser_closed_exactly_once
    (env : Session.Env) (fuel : nat) (url : string)
    (options : Session.Options) :
  Session.validURL env url = true ->
  Session.fault env Session.Launch 0 = None ->
  Session.calls Session.Close
    (Session.trace
       (snd (Session.captureFullPageScreenshot env fuel url options
               Session.initial)))
  = 1%nat.
Proof.
  intros Hurl Hlaunch.
  unfold Session.captureFullPageScreenshot, Session.try_finally,
    Session.pipeline.
  rewrite Hurl.
  erewrite bind_returns by reflexivity.
  erewrite bind_returns by (apply perform_resolves; exact Hlaunch).
  erewrite bind_returns by reflexivity.
  set (ev := Session.EvLaunch _ _ _).
  set (st1 := {| Session.browser := true;
                 Session.trace := Session.trace (Session.record ev Session.initial) |}).
  destruct (steady_after_launch env fuel url options st1) as (tr & E & Hall).
  pose proof (halts_after_launch env fuel url options st1) as Hhalt.
  destruct (Session.bind _ _ st1) as [r st'].
  simpl in E. subst st'. cbn [fst] in Hhalt.
  assert (H0 : Session.calls Session.Close (ev :: tr) = 0%nat).
  { change (ev :: tr) with ([ev] ++ tr).
    rewrite calls_app, (calls_notClose tr Hall). reflexivity. }
  destruct r as [a | e |]; [| | congruence];
    unfold Session.cleanup; cbn [Session.browser];
    unfold Session.try_catch, Session.perform; cbn [Session.trace];
    destruct (Session.fault env Session.Close _); cbn [fst snd];
    unfold Session.console_error, Session.log, Session.record;
    cbn [Session.trace Session.browser snd];
    rewrite ?calls_app, H0; reflexivity.
Qed.

Lemma browser_closed_exactly_once_witness :
  Session.calls Session.Close
    (Session.trace
       (snd (Session.captureFullPageScreenshot Samples.calmEnv 1000
               Samples.exampleURL Samples.overlap768 Session.initial)))
  = 1%nat.
Proof.
  apply (browser_closed_exactly_once Samples.calmEnv 1000
           Samples.exampleURL Samples.overlap768);
    reflexivity.
Defined.

(** X11: when the overlap is smaller than the viewport height and the array
    of offsets may hold those of the page heights the browser reports, a run
    from any state completes and the loop of the planner reaches its
    [break]: the run neither throws nor logs the [RangeError] of
    [positions.push]. *)
Theorem capture_terminates_when_overlap_below_viewport
    (env : Session.Env) (fuel : nat) (url : string)
    (options : Session.Options) (st : Session.State) :
  Session.orDefault 100 (Session.opt_overlap options)
    < Session.orDefault 768 (Session.opt_viewportHeight options) ->
  (forall k,
      (Z.to_nat (Session.measuredHeight env k
                 - Session.orDefault 768 (Session.opt_viewportHeight options))%Z
       < fuel)%nat) ->
  fst (Session.captureFullPageScreenshot env fuel url options st)
    <> Session.Hangs /\
  (forall e,
      fst (Session.captureFullPageScreenshot env fuel url options st)
      = Session.Throws e ->
      ~ Describe.isRangeError e) /\
  exists tr,
    Session.trace
      (snd (Session.captureFullPageScreenshot env fuel url options st))
    = Session.trace st ++ tr /\
    Forall Describe.noRangeErrorLogged tr.
Proof.
  intros Hstep Hfuel. split; [apply capture_halts |].
  apply (capture_tidy env fuel url options Hstep Hfuel st).
Qed.

Lemma capture_terminates_when_overlap_below_viewport_witness :
  fst (Session.captureFullPageScreenshot Samples.calmEnv 1233
         Samples.exampleURL Session.noOptions Session.initial)
    <> Session.Hangs /\
  (forall e,
      fst (Session.captureFullPageScreenshot Samples.calmEnv 1233
             Samples.exampleURL Session.noOptions Session.initial)
      = Session.Throws e ->
      ~ Describe.isRangeError e) /\
  exists tr,
    Session.trace
      (snd (Session.captureFullPageScreenshot Samples.calmEnv 1233
              Samples.exampleURL Session.noOptions Session.initial))
    = Session.trace Session.initial ++ tr /\
    Forall Describe.noRangeErrorLogged tr.
Proof.
  apply (capture_terminates_when_overlap_below_viewport Samples.calmEnv 1233
           Samples.exampleURL Session.noOptions Session.initial).
  - simpl. lia.
  - intros k. vm_compute. lia.
Defined.

(** X17: [saveScreenshotToFile] always captures with a viewport of 1000 and
    an overlap of 100, so that, when the array of offsets may hold those of
    the page heights the browser reports, it completes and never fails with
    the [RangeError] of the planner. *)
Theorem save_never_hangs
    (env : Session.Env) (fs : Files.FsEnv) (fuel : nat)
    (url outputFile : string) :
  (forall k, (Z.to_nat (Session.measuredHeight env k - 1000) < fuel)%nat) ->
  fst (fst (Files.saveScreenshotToFile env fs fuel url outputFile))
    <> Files.Stuck /\
  forall e,
    fst (fst (Files.saveScreenshotToFile env fs fuel url outputFile))
    = Files.Failed (Files.CaptureFailed e) ->
    ~ Describe.isRangeError e.
Proof.
  intros Hfuel.
  pose proof (capture_halts env fuel url Files.savedOptions Session.initial)
    as Hhalt.
  destruct (capture_tidy env fuel url Files.savedOptions
              ltac:(simpl; lia) Hfuel Session.initial) as (Htidy & _).
  unfold Files.saveScreenshotToFile.
  destruct (Session.captureFullPageScreenshot env fuel url Files.savedOptions
              Session.initial) as [[buffer | e |] st]; cbn [fst] in *.
  - destruct (Files.ensureDirectoryExists fs outputFile []) as [[error |] events].
    + split; [discriminate | intros e H; discriminate H].
    + destruct (Files.writeFileError fs);
        (split; [discriminate | intros e H; discriminate H]).
  - split; [discriminate |]. intros e0 [= <-]. apply Htidy. reflexivity.
  - congruence.
Qed.

Lemma save_never_hangs_witness :
  fst (fst (Files.saveScreenshotToFile MoreSamples.calmWideEnv
              MoreSamples.calmFs 1001 Samples.exampleURL "./output/example.png"))
    <> Files.Stuck /\
  forall e,
    fst (fst (Files.saveScreenshotToFile MoreSamples.calmWideEnv
                MoreSamples.calmFs 1001 Samples.exampleURL
                "./output/example.png"))
    = Files.Failed (Files.CaptureFailed e) ->
    ~ Describe.isRangeError e.
Proof.
  apply (save_never_hangs MoreSamples.calmWideEnv MoreSamples.calmFs 1001
           Samples.exampleURL "./output/example.png").
  intros k. vm_compute. lia.
Defined.
